(** * generate_template.py: the template-vault generator

    A shallow embedding of [create_template] and of its nested helper
    [build_structure], over a model of the part of the operating system the
    script talks to: a directory tree, [os.path.join], [os.makedirs(...,
    exist_ok=True)], [open(..., "w")] followed by a write, and [print].

    Conventions of the model.
    - A path is the string the script computes.  The file system resolves it
      to its list of components ([segments]): empty components and "." are
      dropped, ".." steps to the parent.  Relative paths are resolved from
      the root (the process runs with "/" as working directory); there are no
      symbolic links.  The system walks the components one by one, which
      gives another result when the directory before a ".." is missing or is
      a file: what depends on it is stated for paths without ".."
      ([dotdot_free]), as the entry point passes them.
    - The file system is a finite map from resolved paths to entries; the
      root [[]] is always a directory.
    - Failures that do not follow from the tree itself (permissions, a full
      disk) are decided by an oracle [fault] on system calls, fixed for a
      run.
    - Every call the script makes is appended to a log, the failing call
      included; the printed lines are the [PrintLine] entries of that log.
    - Names that contain the NUL character, which Python refuses before any
      system call is made, are outside the model ([valid_name] excludes
      them). *)

From Stdlib Require Import Ascii.
From stdpp Require Import gmap strings list.

(** ** Python strings *)

(** [s.startswith(pre)] *)
Definition startswith (s pre : string) : bool := String.prefix pre s.

(** [s.endswith(suf)] *)
Fixpoint endswith (s suf : string) : bool :=
  String.eqb s suf ||
  match s with
  | EmptyString => false
  | String _ s' => endswith s' suf
  end.

(** [s.replace(old, new)] for a non-empty [old]: the occurrences of [old] are
    replaced from left to right, without overlap.  [skip] counts the
    characters of an occurrence that was just replaced and are still to be
    dropped. *)
Fixpoint replace_from (old new : string) (skip : nat) (s : string) : string :=
  match s with
  | EmptyString => EmptyString
  | String c s' =>
      match skip with
      | S k => replace_from old new k s'
      | O =>
          if String.prefix old s
          then new +:+ replace_from old new (String.length old - 1) s'
          else String c (replace_from old new 0 s')
      end
  end.

Definition str_replace (s old new : string) : string := replace_from old new 0 s.

(** ** Paths *)

(** [os.path.join(a, b)] of [posixpath], for two arguments. *)
Definition os_path_join (a b : string) : string :=
  if startswith b "/" then b
  else if String.eqb a EmptyString || endswith a "/" then a +:+ b
  else a +:+ "/" +:+ b.

(** [s.split("/")] *)
Fixpoint components (s : string) : list string :=
  match s with
  | EmptyString => [EmptyString]
  | String c s' =>
      if Ascii.eqb c "/"%char then EmptyString :: components s'
      else match components s' with
           | h :: t => String c h :: t
           | [] => [String c EmptyString]
           end
  end.

(** Path resolution: walk the components from the directory [stack]. *)
Fixpoint resolve (stack : list string) (comps : list string) : list string :=
  match comps with
  | [] => stack
  | c :: rest =>
      if String.eqb c EmptyString || String.eqb c "." then resolve stack rest
      else if String.eqb c ".." then resolve (removelast stack) rest
      else resolve (stack ++ [c]) rest
  end.

Definition segments (p : string) : list string := resolve [] (components p).

(** ** The file system and the process state *)

Inductive entry : Type :=
  | Dir
  | File (content : string).

Inductive oserror : Type :=
  | FileExistsError
  | FileNotFoundError
  | NotADirectoryError
  | IsADirectoryError
  | PermissionError
  | NoSpaceError.

(** System calls that can fail for reasons outside the tree. *)
Inductive syscall : Type :=
  | SysMkdir (p : list string)
  | SysOpen (p : list string)
  | SysWrite (p : list string).

(** The calls the script makes. *)
Inductive op : Type :=
  | Makedirs (path : string)
  | WriteText (path content : string)
  | PrintLine (line : string).

Record world : Type := World {
  fs : gmap (list string) entry;
  log : list op
}.

Inductive outcome : Type :=
  | Ok
  | Raise (e : oserror).

(** A statement: it runs on a state and either completes or raises; the
    state reached is kept in both cases (an exception undoes nothing). *)
Definition cmd : Type := world -> outcome * world.

Definition skip : cmd := fun w => (Ok, w).

Definition seq (a b : cmd) : cmd := fun w =>
  match a w with
  | (Ok, w') => b w'
  | (Raise e, w') => (Raise e, w')
  end.

Declare Scope cmd_scope.
Delimit Scope cmd_scope with cmd.
Bind Scope cmd_scope with cmd.
Notation "a ;; b" := (seq a b) (at level 100, b at level 200, right associativity) : cmd_scope.
Local Open Scope cmd_scope.

(** [for x in l: body(x)] *)
Fixpoint for_each {A : Type} (l : list A) (body : A -> cmd) : cmd :=
  match l with
  | [] => skip
  | x :: rest => body x ;; for_each rest body
  end.

Definition is_dir (m : gmap (list string) entry) (p : list string) : bool :=
  match p with
  | [] => true
  | _ => match m !! p with Some Dir => true | _ => false end
  end.

Section Filesystem.

Variable fault : syscall -> bool.

(** The directories of [todo] below [above], created from the top. *)
Fixpoint mkdir_chain (above todo : list string) (m : gmap (list string) entry)
  : outcome * gmap (list string) entry :=
  match todo with
  | [] => (Ok, m)
  | seg :: rest =>
      let p := above ++ [seg] in
      match m !! p with
      | Some Dir => mkdir_chain p rest m
      | Some (File _) =>
          (Raise (match rest with [] => FileExistsError | _ => NotADirectoryError end), m)
      | None =>
          if fault (SysMkdir p) then (Raise PermissionError, m)
          else mkdir_chain p rest (<[p := Dir]> m)
      end
  end.

(** [os.makedirs(name, exist_ok=True)] *)
Definition makedirs (name : string) : cmd := fun w =>
  let l := log w ++ [Makedirs name] in
  if String.eqb name EmptyString then (Raise FileNotFoundError, World (fs w) l)
  else let (r, m) := mkdir_chain [] (segments name) (fs w) in (r, World m l).

(** The error of [open(name, "w")], if any. *)
Definition open_error (m : gmap (list string) entry) (name : string) : option oserror :=
  let p := segments name in
  if String.eqb name EmptyString then Some FileNotFoundError
  else if negb (is_dir m (removelast p)) then
    Some (match m !! removelast p with
          | Some _ => NotADirectoryError
          | None => FileNotFoundError
          end)
  else match p, m !! p with
       | [], _ => Some IsADirectoryError
       | _, Some Dir => Some IsADirectoryError
       | _, Some (File _) =>
           if endswith name "/" then Some IsADirectoryError
           else if fault (SysOpen p) then Some PermissionError else None
       | _, None =>
           if endswith name "/" then Some IsADirectoryError
           else if fault (SysOpen p) then Some PermissionError else None
       end.

(** [with open(name, "w") as f: f.write(content)]: the open creates or
    truncates the file, the write fills it. *)
Definition write_text (name content : string) : cmd := fun w =>
  let l := log w ++ [WriteText name content] in
  let p := segments name in
  match open_error (fs w) name with
  | Some e => (Raise e, World (fs w) l)
  | None =>
      if fault (SysWrite p)
      then (Raise NoSpaceError, World (<[p := File EmptyString]> (fs w)) l)
      else (Ok, World (<[p := File content]> (fs w)) l)
  end.

(** [print(line)] *)
Definition print (line : string) : cmd := fun w =>
  (Ok, World (fs w) (log w ++ [PrintLine line])).

End Filesystem.

(** ** Python values *)

(** The values [build_structure] can meet as the content of an entry: a
    [dict] (with its items in insertion order), a [list] of file names, or
    anything else. *)
Inductive pyval : Type :=
  | PDict (d : pydict)
  | PList (l : list string)
  | POther
with pydict : Type :=
  | DNil
  | DCons (name : string) (content : pyval) (rest : pydict).

Scheme pyval_mut := Induction for pyval Sort Prop
  with pydict_mut := Induction for pydict Sort Prop.

(** A dict literal. *)
Fixpoint dict (items : list (string * pyval)) : pydict :=
  match items with
  | [] => DNil
  | (name, content) :: rest => DCons name content (dict rest)
  end.

(** [structure.items()] *)
Fixpoint items (structure : pydict) : list (string * pyval) :=
  match structure with
  | DNil => []
  | DCons name content rest => (name, content) :: items rest
  end.

(** ** The script *)

(** The line feed of the f-string of line 46. *)
Definition newline : string := String "010" EmptyString.

(** The text written to the file [file_name] (line 46). *)
Definition placeholder (file_name : string) : string :=
  "# " +:+ str_replace (str_replace file_name ".md" EmptyString) "_" " "
  +:+ newline +:+ newline
  +:+ "Template content for " +:+ file_name +:+ ".".

Definition template : pydict :=
  dict [
    ("University", PDict (dict [
      ("Semester 1", PDict (dict [
        ("Computer Science 101", PList ["Syllabus.md"; "Notes.md"; "Assignment_1.md"]);
        ("Mathematics", PList ["Calculus_Notes.md"; "Formula_Sheet.md"]);
        ("Physics", PList ["Lab_Report.md"])
      ]));
      ("Resources", PList ["Library_Links.md"; "Student_Handbook.md"])
    ]));
    ("Work", PDict (dict [
      ("Projects", PDict (dict [
        ("Alpha", PList ["Spec.md"; "Timeline.md"]);
        ("Beta", PList ["Feedback.md"])
      ]));
      ("Meetings", PList ["Weekly_Sync.md"; "One_on_One.md"]);
      ("Admin", PList ["Timesheet.md"; "Expenses.md"])
    ]));
    ("Notes", PDict (dict [
      ("Reading List", PList ["Books_to_Read.md"; "Articles.md"]);
      ("Ideas", PList ["App_Idea.md"; "Blog_Posts.md"]);
      ("Journal", PList ["2024-01-01.md"])
    ]));
    ("Archive", PDict (dict []))
  ].

Section Script.

Variable fault : syscall -> bool.

(** The body of the inner [for file_name in content] loop (lines 44-47). *)
Definition write_file (path file_name : string) : cmd :=
  let file_path := os_path_join path file_name in
  write_text fault file_path (placeholder file_name) ;;
  print ("Created file: " +:+ file_path).

Fixpoint build_structure (current_path : string) (structure : pydict)
  {struct structure} : cmd :=
  match structure with
  | DNil => skip
  | DCons name content rest =>
      let path := os_path_join current_path name in
      match content with
      | PDict d =>
          makedirs fault path ;;
          print ("Created folder: " +:+ path) ;;
          build_structure path d
      | PList l =>
          makedirs fault path ;;
          print ("Created folder: " +:+ path) ;;
          for_each l (write_file path)
      | POther => skip
      end ;;
      build_structure current_path rest
  end.

Definition create_template (base_path : string) : cmd :=
  print ("Starting template generation in " +:+ base_path +:+ "...") ;;
  build_structure base_path template ;;
  print "Finished generating template.".

(** One call, as the script issues it. *)
Definition exec (o : op) : cmd :=
  match o with
  | Makedirs path => makedirs fault path
  | WriteText path content => write_text fault path content
  | PrintLine line => print line
  end.

(** A sequence of calls, run until the first one that raises. *)
Definition run_plan (ops : list op) : cmd := for_each ops exec.

End Script.

(** The calls of [for file_name in content], for the folder [path]. *)
Definition file_plan (path : string) (l : list string) : list op :=
  flat_map (fun file_name =>
    let file_path := os_path_join path file_name in
    [WriteText file_path (placeholder file_name);
     PrintLine ("Created file: " +:+ file_path)]) l.

(** The calls [build_structure current_path structure] issues when none
    fails, in order. *)
Fixpoint plan (current_path : string) (structure : pydict) : list op :=
  match structure with
  | DNil => []
  | DCons name content rest =>
      let path := os_path_join current_path name in
      match content with
      | PDict d =>
          Makedirs path :: PrintLine ("Created folder: " +:+ path) :: plan path d
      | PList l =>
          Makedirs path :: PrintLine ("Created folder: " +:+ path) :: file_plan path l
      | POther => []
      end ++ plan current_path rest
  end.

Definition template_plan (base_path : string) : list op :=
  PrintLine ("Starting template generation in " +:+ base_path +:+ "...")
  :: plan base_path template ++ [PrintLine "Finished generating template."].

Definition no_fault : syscall -> bool := fun _ => false.
Definition empty_world : world := World ∅ [].

(** ** Names and the paths of a structure *)

Fixpoint has_char (a : ascii) (s : string) : bool :=
  match s with
  | EmptyString => false
  | String c s' => Ascii.eqb c a || has_char a s'
  end.

(** A valid path segment: not empty, not "." or "..", without "/" and
    without the NUL character. *)
Definition valid_name (n : string) : bool :=
  negb (String.eqb n EmptyString) && negb (String.eqb n ".")
  && negb (String.eqb n "..") && negb (has_char "/" n)
  && negb (has_char "000" n).

Fixpoint valid_names (structure : pydict) : bool :=
  match structure with
  | DNil => true
  | DCons name content rest =>
      valid_name name
      && match content with
         | PDict d => valid_names d
         | PList l => forallb valid_name l
         | POther => true
         end
      && valid_names rest
  end.

(** No component of the path is "..": the path names its directories from
    the top, as a path returned by [os.path.abspath] does.  On such a path
    resolving the components on the text, as [segments] does, is what the
    system does when it walks them. *)
Definition dotdot_free (path : string) : bool :=
  forallb (fun c => negb (String.eqb c "..")) (components path).

(** The chains of keys that lead to a folder of the structure (a key whose
    value is a dict or a list), outermost key first. *)
Fixpoint folder_chains (structure : pydict) : list (list string) :=
  match structure with
  | DNil => []
  | DCons name content rest =>
      match content with
      | PDict d => [name] :: map (cons name) (folder_chains d)
      | PList _ => [[name]]
      | POther => []
      end ++ folder_chains rest
  end.

(** The listed files: the chain of keys of the folder, and the file name. *)
Fixpoint leaf_files (structure : pydict) : list (list string * string) :=
  match structure with
  | DNil => []
  | DCons name content rest =>
      match content with
      | PDict d => map (fun kf => (name :: kf.1, kf.2)) (leaf_files d)
      | PList l => map (fun f => ([name], f)) l
      | POther => []
      end ++ leaf_files rest
  end.

(** The path [build_structure] reaches from [current_path] along a chain of
    keys. *)
Definition join_chain (current_path : string) (ks : list string) : string :=
  fold_left os_path_join ks current_path.

(** ** What a call does to the tree *)

(** The directories [mkdir_chain above todo] looks at, from the top. *)
Fixpoint chain_paths (above todo : list string) : list (list string) :=
  match todo with
  | [] => []
  | seg :: rest => (above ++ [seg]) :: chain_paths (above ++ [seg]) rest
  end.

(** The entries a call sets when it succeeds. *)
Definition writes_of (o : op) : list (list string * entry) :=
  match o with
  | Makedirs path => map (fun p => (p, Dir)) (chain_paths [] (segments path))
  | WriteText path content => [(segments path, File content)]
  | PrintLine _ => []
  end.

Definition apply_writes (ws : list (list string * entry))
  (m : gmap (list string) entry) : gmap (list string) entry :=
  fold_left (fun acc kv => <[kv.1 := kv.2]> acc) ws m.

(** The last entry written at [k], if any. *)
Fixpoint written (k : list string) (ws : list (list string * entry)) : option entry :=
  match ws with
  | [] => None
  | kv :: rest =>
      match written k rest with
      | Some e => Some e
      | None => if decide (kv.1 = k) then Some kv.2 else None
      end
  end.

(** A tree: every entry sits in a directory. *)
Definition well_formed (m : gmap (list string) entry) : Prop :=
  forall p e, m !! p = Some e -> p <> [] /\ is_dir m (removelast p) = true.

(** The resolved paths of the folders and of the files of a plan. *)
Definition folder_paths (ops : list op) : list (list string) :=
  flat_map (fun o => match o with
                     | Makedirs path => chain_paths [] (segments path)
                     | _ => []
                     end) ops.

Definition file_paths (ops : list op) : list (list string) :=
  flat_map (fun o => match o with
                     | WriteText path _ => [segments path]
                     | _ => []
                     end) ops.

(** The resolved paths obtained by joining the base path with the keys and
    the file names of the structure. *)
Definition derived_paths (base_path : string) (structure : pydict) : list (list string) :=
  map (fun ks => segments (join_chain base_path ks)) (folder_chains structure)
  ++ map (fun kf => segments (os_path_join (join_chain base_path kf.1) kf.2))
         (leaf_files structure).

(** ** The placeholder as the specification words it *)

(** [old] occurs in [s]. *)
Fixpoint occurs (old s : string) : bool :=
  String.prefix old s ||
  match s with
  | EmptyString => false
  | String _ s' => occurs old s'
  end.

(** A trailing ".md" stripped, if present. *)
Definition strip_md_suffix (file_name : string) : string :=
  if endswith file_name ".md"
  then String.substring 0 (String.length file_name - 3) file_name
  else file_name.

(** The title of the specification: the trailing extension stripped, then
    every underscore replaced by a space. *)
Definition spec_title (file_name : string) : string :=
  str_replace (strip_md_suffix file_name) "_" " ".

Definition spec_placeholder (file_name : string) : string :=
  "# " +:+ spec_title file_name
  +:+ newline +:+ newline
  +:+ "Template content for " +:+ file_name +:+ ".".

(** ** Recursion depth *)

(** The number of calls of [build_structure] that are active at the deepest
    point of the traversal of a structure: one for the structure itself and
    one more for each level of nested dicts. *)
Fixpoint nesting_depth (structure : pydict) : nat :=
  match structure with
  | DNil => 1
  | DCons _ content rest =>
      Nat.max (match content with
               | PDict d => S (nesting_depth d)
               | _ => 1
               end)
              (nesting_depth rest)
  end.

Section Frames.

Variable fault : syscall -> bool.

(** [build_structure] on a call stack with room for [frames] calls: a call
    takes one frame and a nested call runs on what is left; the result is
    [None] when a call finds no frame. *)
Fixpoint build_structure_on (frames : nat) (current_path : string)
  (structure : pydict) (w : world) {struct frames} : option (outcome * world) :=
  match frames with
  | O => None
  | S n =>
      (fix loop (structure : pydict) (w : world) {struct structure}
         : option (outcome * world) :=
         match structure with
         | DNil => Some (Ok, w)
         | DCons name content rest =>
             let path := os_path_join current_path name in
             let r :=
               match content with
               | PDict d =>
                   match (makedirs fault path ;;
                          print ("Created folder: " +:+ path)) w with
                   | (Ok, w1) => build_structure_on n path d w1
                   | (Raise e, w1) => Some (Raise e, w1)
                   end
               | PList l =>
                   Some ((makedirs fault path ;;
                          print ("Created folder: " +:+ path) ;;
                          for_each l (write_file fault path)) w)
               | POther => Some (Ok, w)
               end in
             match r with
             | Some (Ok, w2) => loop rest w2
             | Some (Raise e, w2) => Some (Raise e, w2)
             | None => None
             end
         end) structure w
  end.

End Frames.

(** ** Entries that are neither a dict nor a list *)

(** The structure without its entries whose value is neither a dict nor a
    list, at every level. *)
Fixpoint prune (structure : pydict) : pydict :=
  match structure with
  | DNil => DNil
  | DCons name content rest =>
      match content with
      | PDict d => DCons name (PDict (prune d)) (prune rest)
      | PList l => DCons name (PList l) (prune rest)
      | POther => prune rest
      end
  end.

(** The calls issued for one item of a dict. *)
Definition entry_plan (current_path : string) (item : string * pyval) : list op :=
  let path := os_path_join current_path item.1 in
  match item.2 with
  | PDict d => Makedirs path :: PrintLine ("Created folder: " +:+ path) :: plan path d
  | PList l => Makedirs path :: PrintLine ("Created folder: " +:+ path) :: file_plan path l
  | POther => []
  end.

(** The state in which [create_template] calls [build_structure]. *)
Definition started (base_path : string) (w : world) : world :=
  World (fs w)
        (log w ++ [PrintLine ("Starting template generation in " +:+ base_path +:+ "...")]).

(** ** States used in the examples *)

(** A tree in which "/tmp/x/Work/Meetings/One_on_One.md" exists with other
    content. *)
Definition edited_world : world :=
  World (list_to_map
           [(["tmp"], Dir); (["tmp"; "x"], Dir); (["tmp"; "x"; "Work"], Dir);
            (["tmp"; "x"; "Work"; "Meetings"], Dir);
            (["tmp"; "x"; "Work"; "Meetings"; "One_on_One.md"],
             File "my own notes")])
        [].

(** A tree in which "/tmp/x/Work" is a file. *)
Definition blocked_world : world :=
  World (list_to_map
           [(["tmp"], Dir); (["tmp"; "x"], Dir);
            (["tmp"; "x"; "Work"], File "not a folder")])
        [].

(** An environment that refuses the creation of "/tmp/x/Notes". *)
Definition notes_denied : syscall -> bool := fun c =>
  match c with
  | SysMkdir p => bool_decide (p = ["tmp"; "x"; "Notes"])
  | _ => false
  end.

(** A tree in which "/tmp/x/Work/Meetings/One_on_One.md" is a directory. *)
Definition squatted_world : world :=
  World (list_to_map
           [(["tmp"], Dir); (["tmp"; "x"], Dir); (["tmp"; "x"; "Work"], Dir);
            (["tmp"; "x"; "Work"; "Meetings"], Dir);
            (["tmp"; "x"; "Work"; "Meetings"; "One_on_One.md"], Dir)])
        [].

(** The calls of a plan come in pairs: a folder made and the line that says
    so, a file written and the line that says so. *)
Inductive announced : list op -> Prop :=
  | announced_nil : announced []
  | announced_folder (path : string) (ops : list op) :
      announced ops ->
      announced (Makedirs path :: PrintLine ("Created folder: " +:+ path) :: ops)
  | announced_file (path content : string) (ops : list op) :
      announced ops ->
      announced (WriteText path content
                 :: PrintLine ("Created file: " +:+ path) :: ops).

(** An environment in which the write into
    "/tmp/x/Work/Meetings/One_on_One.md" fails for lack of space. *)
Definition disk_full : syscall -> bool := fun c =>
  match c with
  | SysWrite p =>
      bool_decide (p = ["tmp"; "x"; "Work"; "Meetings"; "One_on_One.md"])
  | _ => false
  end.






(** ** The entry point (lines 53-61) *)

(** [sep.join(l)] *)
Fixpoint str_join (sep : string) (l : list string) : string :=
  match l with
  | [] => EmptyString
  | [x] => x
  | x :: rest => x +:+ sep +:+ str_join sep rest
  end.

(** [os.path.isabs(s)] *)
Definition os_path_isabs (s : string) : bool := startswith s "/".

(** The loop of [posixpath.normpath] over the components of the path. *)
Fixpoint norm_comps (initial_slashes : nat) (new_comps comps : list string)
  : list string :=
  match comps with
  | [] => new_comps
  | comp :: rest =>
      if String.eqb comp EmptyString || String.eqb comp "."
      then norm_comps initial_slashes new_comps rest
      else if negb (String.eqb comp "..")
              || (Nat.eqb initial_slashes 0 && bool_decide (new_comps = []))
              || match last new_comps with
                 | Some c => String.eqb c ".."
                 | None => false
                 end
      then norm_comps initial_slashes (new_comps ++ [comp]) rest
      else norm_comps initial_slashes (removelast new_comps) rest
  end.

(** ["/" * n] *)
Fixpoint slashes (n : nat) : string :=
  match n with
  | O => EmptyString
  | S k => String "/" (slashes k)
  end.

(** The number of leading slashes [normpath] keeps: two when the path starts
    with exactly two, one when it starts with one or with three or more. *)
Definition initial_slashes (path : string) : nat :=
  if startswith path "/"
  then if startswith path "//" && negb (startswith path "///") then 2 else 1
  else 0.

(** [os.path.normpath(path)] of [posixpath] *)
Definition normpath (path : string) : string :=
  if String.eqb path EmptyString then "."
  else
    let comps := norm_comps (initial_slashes path) [] (components path) in
    let joined := slashes (initial_slashes path) +:+ str_join "/" comps in
    if String.eqb joined EmptyString then "." else joined.

(** [os.path.abspath(path)], in a process whose working directory is [cwd] *)
Definition os_path_abspath (cwd path : string) : string :=
  normpath (if os_path_isabs path then path else os_path_join cwd path).

(** [p[:p.rfind("/") + 1]] *)
Fixpoint upto_last_slash (p : string) : string :=
  match p with
  | EmptyString => EmptyString
  | String c p' => if has_char "/" p then String c (upto_last_slash p') else EmptyString
  end.

(** [s == "/" * len(s)] *)
Fixpoint all_slashes (s : string) : bool :=
  match s with
  | EmptyString => true
  | String c s' => Ascii.eqb c "/" && all_slashes s'
  end.

(** [s.rstrip("/")] *)
Fixpoint rstrip_slashes (s : string) : string :=
  match s with
  | EmptyString => EmptyString
  | String c s' => if all_slashes s then EmptyString else String c (rstrip_slashes s')
  end.

(** [os.path.dirname(p)] of [posixpath] *)
Definition os_path_dirname (p : string) : string :=
  let head := upto_last_slash p in
  if negb (String.eqb head EmptyString) && negb (all_slashes head)
  then rstrip_slashes head
  else head.

(** The path passed to [create_template] (lines 54-59), for the script at
    [file] (the value of [__file__]) in a process whose working directory is
    [cwd]. *)
Definition template_root (cwd file : string) : string :=
  let current_script_dir := os_path_dirname (os_path_abspath cwd file) in
  let target_vault_dir :=
    os_path_abspath cwd (os_path_join current_script_dir "../../..") in
  os_path_join target_vault_dir "Template_Vault".

(** The script run as a program (lines 53-61). *)
Definition main (fault : syscall -> bool) (cwd file : string) : cmd :=
  create_template fault (template_root cwd file).

(** A path segment as path resolution leaves it: not empty, not "." or
    "..", without "/". *)
Definition clean_name (n : string) : bool :=
  negb (String.eqb n EmptyString) && negb (String.eqb n ".")
  && negb (String.eqb n "..") && negb (has_char "/" n).

(** The directory [n] levels above a resolved path. *)
Fixpoint up (n : nat) (p : list string) : list string :=
  match n with
  | O => p
  | S k => up k (removelast p)
  end.

(** * Paths: resolution of a joined path *)

Lemma components_nonempty (s : string) : components s <> [].
Proof.
  destruct s as [|c s]; simpl; [discriminate|].
  destruct (Ascii.eqb c "/"); [discriminate|].
  destruct (components s); discriminate.
Qed.

Lemma components_app_slash (a b : string) :
  components (a +:+ String "/" b) = components a ++ components b.
Proof.
  induction a as [|c a IH]; simpl; [reflexivity|].
  destruct (Ascii.eqb c "/"); [by rewrite IH|].
  rewrite IH. pose proof (components_nonempty a) as Hne.
  destruct (components a); [congruence|reflexivity].
Qed.

Lemma components_no_slash (n : string) :
  has_char "/" n = false -> components n = [n].
Proof.
  induction n as [|c n IH]; simpl; [reflexivity|].
  intros [Hc Hn]%orb_false_elim. rewrite Hc, (IH Hn). reflexivity.
Qed.

Lemma resolve_app (st a b : list string) :
  resolve st (a ++ b) = resolve (resolve st a) b.
Proof.
  revert st. induction a as [|c a IH]; intros st; simpl; [reflexivity|].
  destruct (String.eqb c EmptyString || String.eqb c "."); [apply IH|].
  destruct (String.eqb c ".."); apply IH.
Qed.

Lemma valid_name_spec (n : string) :
  valid_name n = true ->
  String.eqb n EmptyString = false /\ String.eqb n "." = false /\
  String.eqb n ".." = false /\ has_char "/" n = false.
Proof.
  unfold valid_name. rewrite !andb_true_iff, !negb_true_iff. tauto.
Qed.

Lemma resolve_valid (st : list string) (n : string) :
  valid_name n = true -> resolve st [n] = st ++ [n].
Proof.
  intros (H1 & H2 & H3 & _)%valid_name_spec. simpl. by rewrite H1, H2, H3.
Qed.

Lemma endswith_cons (c : ascii) (s suf : string) :
  endswith (String c s) suf = String.eqb (String c s) suf || endswith s suf.
Proof. reflexivity. Qed.

Lemma endswith_suffix (a suf : string) :
  endswith a suf = true -> exists q, a = q +:+ suf.
Proof.
  induction a as [|c a IH].
  - cbn [endswith]. rewrite orb_false_r. intros <-%String.eqb_eq.
    by exists EmptyString.
  - rewrite endswith_cons. intros [Heq|Hrec]%orb_true_iff.
    + apply String.eqb_eq in Heq. exists EmptyString. by rewrite Heq.
    + destruct (IH Hrec) as [q ->]. by exists (String c q).
Qed.

Lemma append_cons (c : ascii) (a b : string) :
  String c a +:+ b = String c (a +:+ b).
Proof. reflexivity. Qed.

Lemma append_assoc (a b c : string) : (a +:+ b) +:+ c = a +:+ b +:+ c.
Proof.
  induction a as [|x a IH]; [reflexivity|]. by rewrite !append_cons, IH.
Qed.

Lemma string_prefix_cons (a b : ascii) (s1 s2 : string) :
  String.prefix (String a s1) (String b s2)
  = if ascii_dec a b then String.prefix s1 s2 else false.
Proof. reflexivity. Qed.

Lemma valid_name_not_absolute (n : string) :
  valid_name n = true -> startswith n "/" = false.
Proof.
  intros (_ & _ & _ & Hs)%valid_name_spec.
  destruct n as [|c n]; [reflexivity|]. cbn [has_char] in Hs.
  apply orb_false_elim in Hs as [Hc _]. unfold startswith.
  rewrite string_prefix_cons.
  destruct (ascii_dec "/" c) as [<-|]; [discriminate|reflexivity].
Qed.

(** For a valid name, [os.path.join] appends exactly one component. *)
Lemma segments_join (a n : string) :
  valid_name n = true -> segments (os_path_join a n) = segments a ++ [n].
Proof.
  intros Hv. unfold os_path_join, segments.
  rewrite (valid_name_not_absolute n Hv).
  pose proof (valid_name_spec n Hv) as (_ & _ & _ & Hs).
  destruct (String.eqb a EmptyString) eqn:Ha; simpl.
  - apply String.eqb_eq in Ha as ->.
    change (EmptyString +:+ n) with n.
    rewrite (components_no_slash n Hs). by apply resolve_valid.
  - destruct (endswith a "/") eqn:He.
    + destruct (endswith_suffix a "/" He) as [q ->].
      rewrite append_assoc. change ("/" +:+ n) with (String "/" n).
      change (q +:+ "/") with (q +:+ String "/" EmptyString).
      rewrite !components_app_slash, (components_no_slash n Hs).
      rewrite !resolve_app. cbn [components resolve String.eqb orb].
      by apply resolve_valid.
    + change ("/" +:+ n) with (String "/" n).
      rewrite components_app_slash, (components_no_slash n Hs).
      rewrite resolve_app. by apply resolve_valid.
Qed.

Lemma segments_join_chain (a : string) (ks : list string) :
  forallb valid_name ks = true ->
  segments (join_chain a ks) = segments a ++ ks.
Proof.
  revert a. induction ks as [|k ks IH]; intros a; simpl.
  - by rewrite app_nil_r.
  - intros [Hk Hks]%andb_true_iff. unfold join_chain in *. simpl.
    rewrite IH, segments_join by done. by rewrite <- app_assoc.
Qed.

(** * The script issues its plan, call by call *)

Section PlanFacts.

Variable fault : syscall -> bool.

Lemma seq_apply (a b : cmd) (w : world) :
  (a ;; b) w = match a w with
               | (Ok, w') => b w'
               | (Raise e, w') => (Raise e, w')
               end.
Proof. reflexivity. Qed.

Lemma run_plan_cons (o : op) (ops : list op) (w : world) :
  run_plan fault (o :: ops) w = (exec fault o ;; run_plan fault ops) w.
Proof. reflexivity. Qed.

Lemma run_plan_app (ops1 ops2 : list op) (w : world) :
  run_plan fault (ops1 ++ ops2) w
  = (run_plan fault ops1 ;; run_plan fault ops2) w.
Proof.
  revert w. induction ops1 as [|o ops1 IH]; intros w; [reflexivity|].
  rewrite <- app_comm_cons, seq_apply, !run_plan_cons, !seq_apply.
  destruct (exec fault o w) as [[|e] w1]; [|reflexivity].
  rewrite IH. reflexivity.
Qed.

Lemma seq_ext (a a' b b' : cmd) (w : world) :
  a w = a' w -> (forall w', b w' = b' w') -> (a ;; b) w = (a' ;; b') w.
Proof.
  intros Ha Hb. rewrite !seq_apply, Ha.
  destruct (a' w) as [[|e] w1]; [apply Hb|reflexivity].
Qed.

Lemma seq_assoc (a b c : cmd) (w : world) :
  ((a ;; b) ;; c) w = (a ;; b ;; c) w.
Proof.
  rewrite !seq_apply. destruct (a w) as [[|e] w1]; [|reflexivity].
  rewrite seq_apply. reflexivity.
Qed.

Lemma for_each_write_file (path : string) (l : list string) (w : world) :
  for_each l (write_file fault path) w = run_plan fault (file_plan path l) w.
Proof.
  revert w. induction l as [|f l IH]; intros w; [reflexivity|].
  cbn [for_each file_plan flat_map app].
  rewrite run_plan_cons. unfold write_file at 1. cbv zeta.
  rewrite seq_assoc. apply seq_ext; [reflexivity|]. intros w1.
  rewrite run_plan_cons. apply seq_ext; [reflexivity|]. apply IH.
Qed.

(** [build_structure] runs the calls of [plan] in order and stops at the
    first one that raises. *)
Lemma build_structure_plan (structure : pydict) :
  forall (current_path : string) (w : world),
    build_structure fault current_path structure w
    = run_plan fault (plan current_path structure) w.
Proof.
  induction structure using pydict_mut with
    (P := fun content =>
            match content with
            | PDict d => forall current_path w,
                build_structure fault current_path d w
                = run_plan fault (plan current_path d) w
            | _ => True
            end); try exact I; try assumption.
  - intros current_path w. reflexivity.
  - intros current_path w. cbn [build_structure plan]. cbv zeta.
    rewrite run_plan_app.
    apply seq_ext; [|intros w1; apply IHstructure0].
    destruct content as [d|l|]; [| |reflexivity].
    + rewrite run_plan_cons. apply seq_ext; [reflexivity|]. intros w1.
      rewrite run_plan_cons. apply seq_ext; [reflexivity|]. intros w2.
      apply IHstructure.
    + rewrite run_plan_cons. apply seq_ext; [reflexivity|]. intros w1.
      rewrite run_plan_cons. apply seq_ext; [reflexivity|]. intros w2.
      apply for_each_write_file.
Qed.

Lemma create_template_plan (base_path : string) (w : world) :
  create_template fault base_path w
  = run_plan fault (template_plan base_path) w.
Proof.
  unfold create_template, template_plan.
  rewrite run_plan_cons. apply seq_ext; [reflexivity|]. intros w1.
  rewrite run_plan_app. apply seq_ext; [apply build_structure_plan|].
  reflexivity.
Qed.

End PlanFacts.

(** * The file-system calls *)

Section CallFacts.

Variable fault : syscall -> bool.

Implicit Types (m : gmap (list string) entry) (p q : list string).

Lemma elem_of_chain_paths (above todo q : list string) :
  q ∈ chain_paths above todo <->
  exists pre, pre <> [] /\ pre `prefix_of` todo /\ q = above ++ pre.
Proof.
  revert above. induction todo as [|seg rest IH]; intros above; simpl.
  - split; [by intros ?%elem_of_nil|].
    intros (pre & Hne & Hpre%prefix_nil_inv & _). congruence.
  - rewrite elem_of_cons, IH. split.
    + intros [->|(pre & Hne & Hpre & ->)].
      * exists [seg]. split; [done|]. split; [|done].
        by apply prefix_cons, prefix_nil.
      * exists (seg :: pre). split; [done|]. split; [by apply prefix_cons|].
        by rewrite <- app_assoc.
    + intros (pre & Hne & Hpre & ->).
      destruct pre as [|x pre]; [done|].
      pose proof (prefix_cons_inv_1 _ _ _ _ Hpre) as ->.
      apply prefix_cons_inv_2 in Hpre.
      destruct pre as [|y pre]; [by left|]. right.
      exists (y :: pre). split; [done|]. split; [done|].
      by rewrite <- app_assoc.
Qed.

Lemma chain_paths_last (above todo : list string) :
  todo <> [] -> above ++ todo ∈ chain_paths above todo.
Proof.
  intros Hne. apply elem_of_chain_paths. by exists todo.
Qed.

(** [mkdir_chain] leaves every entry that exists where it is. *)
Lemma mkdir_chain_preserve (todo above : list string) m r m' q e :
  mkdir_chain fault above todo m = (r, m') ->
  m !! q = Some e -> m' !! q = Some e.
Proof.
  revert above m. induction todo as [|seg rest IH]; intros above m; simpl.
  - by intros [= _ <-].
  - destruct (m !! (above ++ [seg])) as [[|c]|] eqn:Hp.
    + apply IH.
    + by intros [= _ <-].
    + destruct (fault _); [by intros [= _ <-]|].
      intros Hrec Hq. eapply IH; [exact Hrec|].
      rewrite lookup_insert_ne; [done|]. intros <-. congruence.
Qed.

(** What it adds are directories of the chain. *)
Lemma mkdir_chain_new (todo above : list string) m r m' q :
  mkdir_chain fault above todo m = (r, m') ->
  m !! q = None ->
  m' !! q = None \/ (m' !! q = Some Dir /\ q ∈ chain_paths above todo).
Proof.
  revert above m. induction todo as [|seg rest IH]; intros above m; simpl.
  - intros [= _ <-]. by left.
  - destruct (m !! (above ++ [seg])) as [[|c]|] eqn:Hp.
    + intros Hrec Hq. destruct (IH _ _ Hrec Hq) as [|[? ?]]; [by left|].
      right. split; [done|]. by apply list_elem_of_further.
    + intros [= _ <-]. by left.
    + destruct (fault _); [intros [= _ <-]; by left|].
      intros Hrec Hq. destruct (decide (q = above ++ [seg])) as [->|Hne].
      * right. split; [|by apply list_elem_of_here].
        eapply mkdir_chain_preserve; [exact Hrec|]. by rewrite lookup_insert_eq.
      * destruct (IH _ _ Hrec) as [|[? ?]].
        { by rewrite lookup_insert_ne. }
        { by left. }
        right. split; [done|]. by apply list_elem_of_further.
Qed.

(** When it succeeds, every directory of the chain exists. *)
Lemma mkdir_chain_ok_dirs (todo above : list string) m m' q :
  mkdir_chain fault above todo m = (Ok, m') ->
  q ∈ chain_paths above todo -> m' !! q = Some Dir.
Proof.
  revert above m. induction todo as [|seg rest IH]; intros above m; simpl.
  - by intros _ ?%elem_of_nil.
  - destruct (m !! (above ++ [seg])) as [[|c]|] eqn:Hp; [|done|].
    + intros Hrec [->|Hin]%elem_of_cons; [|by eapply IH].
      eapply mkdir_chain_preserve; [exact Hrec|done].
    + destruct (fault _); [done|].
      intros Hrec [->|Hin]%elem_of_cons; [|by eapply IH].
      eapply mkdir_chain_preserve; [exact Hrec|]. by rewrite lookup_insert_eq.
Qed.

(** When it succeeds, its effect is to set the chain to directories. *)
Lemma mkdir_chain_ok_writes (todo above : list string) m m' :
  mkdir_chain fault above todo m = (Ok, m') ->
  m' = apply_writes (map (fun p => (p, Dir)) (chain_paths above todo)) m.
Proof.
  revert above m. induction todo as [|seg rest IH]; intros above m; simpl.
  - by intros [= <-].
  - destruct (m !! (above ++ [seg])) as [[|c]|] eqn:Hp; [|done|].
    + intros Hrec. rewrite (insert_id m _ _ Hp). by apply IH.
    + destruct (fault _); [done|]. apply IH.
Qed.

(** On a chain of existing directories it does nothing. *)
Lemma mkdir_chain_existing (todo above : list string) m :
  (forall q, q ∈ chain_paths above todo -> m !! q = Some Dir) ->
  mkdir_chain fault above todo m = (Ok, m).
Proof.
  revert above. induction todo as [|seg rest IH]; intros above Hall; simpl.
  - done.
  - rewrite (Hall (above ++ [seg])) by apply list_elem_of_here.
    apply IH. intros q Hq. apply Hall. by apply list_elem_of_further.
Qed.

(** [open(name, "w")] succeeds exactly when the parent is a directory, the
    target is not one, and the name and the oracle allow it. *)
Lemma open_error_None m (name : string) :
  open_error fault m name = None <->
  String.eqb name EmptyString = false
  /\ is_dir m (removelast (segments name)) = true
  /\ segments name <> []
  /\ m !! segments name <> Some Dir
  /\ endswith name "/" = false
  /\ fault (SysOpen (segments name)) = false.
Proof.
  unfold open_error.
  destruct (String.eqb name EmptyString); [by intuition|].
  destruct (is_dir m (removelast (segments name))); simpl; [|by intuition].
  destruct (segments name) as [|x l] eqn:Hs; [by intuition|].
  destruct (m !! (x :: l)) as [[|c]|];
    destruct (endswith name "/"), (fault (SysOpen (x :: l)));
    by intuition.
Qed.

Lemma write_text_ok (name content : string) (w w' : world) :
  write_text fault name content w = (Ok, w') <->
  open_error fault (fs w) name = None
  /\ fault (SysWrite (segments name)) = false
  /\ w' = World (<[segments name := File content]> (fs w))
                (log w ++ [WriteText name content]).
Proof.
  unfold write_text. destruct (open_error fault (fs w) name) as [e|].
  - split; [done|]. by intros (? & _).
  - destruct (fault (SysWrite (segments name))).
    + split; [done|]. by intros (_ & ? & _).
    + split; [by intros [= <-]|]. by intros (_ & _ & ->).
Qed.

(** Away from its target, [write_text] changes nothing, whatever its
    outcome; at its target it never replaces a directory. *)
Lemma write_text_frame (name content : string) (w w' : world) r q :
  write_text fault name content w = (r, w') ->
  fs w' !! q = fs w !! q
  \/ (q = segments name /\ fs w !! q <> Some Dir
      /\ exists c, fs w' !! q = Some (File c)).
Proof.
  unfold write_text.
  destruct (open_error fault (fs w) name) as [e|] eqn:Ho.
  { intros [= _ <-]. by left. }
  apply open_error_None in Ho as (_ & _ & _ & Hnd & _ & _).
  destruct (decide (q = segments name)) as [->|Hne].
  - destruct (fault _); intros [= _ <-]; right; simpl;
      rewrite lookup_insert_eq; eauto.
  - destruct (fault _); intros [= _ <-]; left; simpl;
      by rewrite lookup_insert_ne.
Qed.

Lemma makedirs_inv (name : string) (w w' : world) r :
  makedirs fault name w = (r, w') ->
  log w' = log w ++ [Makedirs name]
  /\ ((r <> Ok /\ fs w' = fs w)
      \/ mkdir_chain fault [] (segments name) (fs w) = (r, fs w')).
Proof.
  unfold makedirs. destruct (String.eqb name EmptyString).
  - intros [= <- <-]. split; [done|]. by left.
  - destruct (mkdir_chain fault [] (segments name) (fs w)) as [r0 m0] eqn:Hc.
    intros [= <- <-]. split; [done|]. by right.
Qed.

End CallFacts.

(** * One call, then a sequence of calls *)

Section RunFacts.

Variable fault : syscall -> bool.

Implicit Types (m : gmap (list string) entry) (p q : list string).
Implicit Types (o : op) (ops : list op) (w u : world).

Lemma exec_log o w r w' :
  exec fault o w = (r, w') -> log w' = log w ++ [o].
Proof.
  destruct o as [name|name content|line]; cbn [exec].
  - by intros [? _]%makedirs_inv.
  - unfold write_text. destruct (open_error _ _ _); [by intros [= _ <-]|].
    destruct (fault _); by intros [= _ <-].
  - by intros [= _ <-].
Qed.

(** A call changes an entry only in two ways: [makedirs] adds a missing
    directory of its chain, [write_text] sets its target, which is not a
    directory, to a file. *)
Lemma exec_frame o w r w' q :
  exec fault o w = (r, w') ->
  fs w' !! q = fs w !! q
  \/ (fs w !! q = None /\ fs w' !! q = Some Dir /\ q ∈ folder_paths [o])
  \/ (q ∈ file_paths [o] /\ fs w !! q <> Some Dir
      /\ exists c, fs w' !! q = Some (File c)).
Proof.
  destruct o as [name|name content|line]; cbn [exec].
  - intros [_ [[_ ->]|Hc]]%makedirs_inv; [by left|].
    destruct (fs w !! q) as [e|] eqn:Hq.
    + left. by eapply mkdir_chain_preserve.
    + destruct (mkdir_chain_new _ _ _ _ _ _ q Hc Hq) as [->|[? ?]]; [by left|].
      right; left. unfold folder_paths. simpl. by rewrite app_nil_r.
  - intros [?|(-> & ? & ?)]%(write_text_frame _ _ _ _ _ _ q); [by left|].
    right; right. split; [|done]. unfold file_paths. simpl.
    apply list_elem_of_here.
  - intros [= _ <-]. by left.
Qed.

Lemma exec_dir_persists o w r w' q :
  exec fault o w = (r, w') -> fs w !! q = Some Dir -> fs w' !! q = Some Dir.
Proof.
  intros He Hq.
  destruct (exec_frame _ _ _ _ q He) as [->|[(? & _)|(_ & ? & _)]]; congruence.
Qed.

Lemma exec_file_persists o w r w' q c :
  exec fault o w = (r, w') -> fs w !! q = Some (File c) ->
  exists c', fs w' !! q = Some (File c').
Proof.
  intros He Hq.
  destruct (exec_frame _ _ _ _ q He) as [->|[(? & _)|(_ & _ & ?)]];
    [eauto|congruence|done].
Qed.

(** The entries a successful call is there to set are set. *)
Lemma exec_ok_post o w w' k e :
  exec fault o w = (Ok, w') -> (k, e) ∈ writes_of o -> fs w' !! k = Some e.
Proof.
  destruct o as [name|name content|line]; cbn [exec writes_of].
  - intros [_ [[? _]|Hc]]%makedirs_inv; [done|].
    intros (q & [= <- <-] & Hq)%list_elem_of_In%in_map_iff.
    eapply mkdir_chain_ok_dirs; [exact Hc|]. by apply list_elem_of_In.
  - intros (_ & _ & ->)%write_text_ok [= -> ->]%list_elem_of_singleton.
    simpl. by rewrite lookup_insert_eq.
  - by intros _ ?%elem_of_nil.
Qed.

Lemma exec_ok_writes o w w' :
  exec fault o w = (Ok, w') -> fs w' = apply_writes (writes_of o) (fs w).
Proof.
  destruct o as [name|name content|line]; cbn [exec writes_of].
  - intros [_ [[? _]|Hc]]%makedirs_inv; [done|].
    by apply mkdir_chain_ok_writes in Hc.
  - by intros (_ & _ & ->)%write_text_ok.
  - by intros [= <-].
Qed.

(** A call that succeeded succeeds again in any later state: one in which
    what it left as a directory is a directory and what it left as a file
    is a file. *)
Lemma exec_again o w w1 u :
  exec fault o w = (Ok, w1) ->
  (forall q, fs w1 !! q = Some Dir -> fs u !! q = Some Dir) ->
  (forall q c, fs w1 !! q = Some (File c) -> exists c', fs u !! q = Some (File c')) ->
  exists u', exec fault o u = (Ok, u').
Proof.
  intros He Hd Hf. destruct o as [name|name content|line]; cbn [exec] in *.
  - pose proof He as [_ [[? _]|Hc]]%makedirs_inv; [done|].
    unfold makedirs in *. destruct (String.eqb name EmptyString); [done|].
    rewrite mkdir_chain_existing; [eauto|].
    intros q Hq. apply Hd. by eapply mkdir_chain_ok_dirs.
  - pose proof He as (Ho & Hw & ->)%write_text_ok.
    apply open_error_None in Ho as (Hn & Hpar & Hne & Hnd & Hsl & Hop).
    eexists. apply write_text_ok. split; [|done].
    apply open_error_None. repeat split; try done.
    + unfold is_dir in *. destruct (removelast (segments name)) eqn:Hr; [done|].
      destruct (fs w !! (s :: l)) as [[|c]|] eqn:Hp; try done.
      rewrite (Hd (s :: l)); [done|].
      eapply (exec_dir_persists (WriteText name content)); [exact He|done].
    + destruct (Hf (segments name) content) as [c' Hc'].
      { simpl. by rewrite lookup_insert_eq. }
      congruence.
  - eauto.
Qed.

Lemma run_plan_step o ops w r w' :
  run_plan fault (o :: ops) w = (r, w') ->
  (exists e, exec fault o w = (Raise e, w') /\ r = Raise e)
  \/ (exists w1, exec fault o w = (Ok, w1) /\ run_plan fault ops w1 = (r, w')).
Proof.
  rewrite run_plan_cons, seq_apply.
  destruct (exec fault o w) as [[|e] w1]; [by eauto|].
  intros [= <- <-]. left. by eauto.
Qed.

Lemma run_plan_ok_cons o ops w w' :
  run_plan fault (o :: ops) w = (Ok, w') ->
  exists w1, exec fault o w = (Ok, w1) /\ run_plan fault ops w1 = (Ok, w').
Proof. intros [(e & _ & [=])|?]%run_plan_step. done. Qed.

Lemma run_plan_ok_app ops1 ops2 w w' :
  run_plan fault (ops1 ++ ops2) w = (Ok, w') ->
  exists w1, run_plan fault ops1 w = (Ok, w1)
             /\ run_plan fault ops2 w1 = (Ok, w').
Proof.
  rewrite run_plan_app, seq_apply.
  destruct (run_plan fault ops1 w) as [[|e] w1]; [by eauto|done].
Qed.

(** A run that completes has logged the whole plan. *)
Lemma run_plan_ok_log ops w w' :
  run_plan fault ops w = (Ok, w') -> log w' = log w ++ ops.
Proof.
  revert w. induction ops as [|o ops IH]; intros w.
  - intros [= <-]. by rewrite app_nil_r.
  - intros (w1 & He & Hr)%run_plan_ok_cons.
    rewrite (IH _ Hr), (exec_log _ _ _ _ He), <- app_assoc. done.
Qed.

(** A run that raises stops at the failing call: the calls before it have
    completed, the calls after it are not made. *)
Lemma run_plan_raise ops w e w' :
  run_plan fault ops w = (Raise e, w') ->
  exists before failed after w1,
    ops = before ++ failed :: after
    /\ run_plan fault before w = (Ok, w1)
    /\ exec fault failed w1 = (Raise e, w')
    /\ log w' = log w ++ before ++ [failed].
Proof.
  revert w. induction ops as [|o ops IH]; intros w; [done|].
  intros [(e' & He & [= ->])|(w1 & He & Hr)]%run_plan_step.
  - exists [], o, ops, w. repeat split; [done|].
    by rewrite (exec_log _ _ _ _ He).
  - destruct (IH _ Hr) as (before & failed & after & w2 & -> & Hb & Hf & Hl).
    exists (o :: before), failed, after, w2. repeat split; [| done |].
    + rewrite run_plan_cons, seq_apply, He. done.
    + rewrite Hl, (exec_log _ _ _ _ He), <- !app_assoc. done.
Qed.

Lemma folder_paths_cons o ops :
  folder_paths (o :: ops) = folder_paths [o] ++ folder_paths ops.
Proof. unfold folder_paths. simpl. by rewrite app_nil_r. Qed.

Lemma file_paths_cons o ops :
  file_paths (o :: ops) = file_paths [o] ++ file_paths ops.
Proof. unfold file_paths. simpl. by rewrite app_nil_r. Qed.

(** The frame of a run, whatever its outcome. *)
Lemma run_plan_frame ops w r w' q :
  run_plan fault ops w = (r, w') ->
  fs w' !! q = fs w !! q
  \/ (fs w !! q = None /\ fs w' !! q = Some Dir /\ q ∈ folder_paths ops)
  \/ (q ∈ file_paths ops /\ fs w !! q <> Some Dir
      /\ exists c, fs w' !! q = Some (File c)).
Proof.
  revert w. induction ops as [|o ops IH]; intros w.
  - intros [= _ <-]. by left.
  - rewrite folder_paths_cons, file_paths_cons. setoid_rewrite elem_of_app.
    intros [(e & He & _)|(w1 & He & Hr)]%run_plan_step.
    + destruct (exec_frame _ _ _ _ q He) as [?|[(? & ? & ?)|(? & ? & ?)]];
        by eauto 10.
    + destruct (exec_frame _ _ _ _ q He) as [H1|[(? & ? & ?)|(? & ? & [c Hc])]];
        destruct (IH _ Hr) as [H2|[(? & ? & ?)|(? & ? & [c' Hc'])]];
        try congruence.
      * left. congruence.
      * right; left. rewrite <- H1. by eauto.
      * right; right. rewrite <- H1. by eauto.
      * right; left. rewrite H2. by eauto.
      * right; right. rewrite H2. by eauto 10.
      * right; right. by eauto 10.
Qed.

Lemma run_plan_dir_persists ops w r w' q :
  run_plan fault ops w = (r, w') ->
  fs w !! q = Some Dir -> fs w' !! q = Some Dir.
Proof.
  intros Hr Hq.
  destruct (run_plan_frame _ _ _ _ q Hr) as [->|[(? & _)|(_ & ? & _)]];
    congruence.
Qed.

Lemma run_plan_file_persists ops w r w' q c :
  run_plan fault ops w = (r, w') -> fs w !! q = Some (File c) ->
  exists c', fs w' !! q = Some (File c').
Proof.
  intros Hr Hq.
  destruct (run_plan_frame _ _ _ _ q Hr) as [->|[(? & _)|(_ & _ & ?)]];
    [eauto|congruence|done].
Qed.

(** After a complete run every folder of the plan is a directory. *)
Lemma run_plan_ok_folder ops w w' path q :
  run_plan fault ops w = (Ok, w') ->
  Makedirs path ∈ ops -> q ∈ chain_paths [] (segments path) ->
  fs w' !! q = Some Dir.
Proof.
  intros Hr (ops1 & ops2 & ->)%list_elem_of_split Hq.
  apply run_plan_ok_app in Hr as (w1 & _ & Hr).
  apply run_plan_ok_cons in Hr as (w2 & He & Hr).
  eapply run_plan_dir_persists; [exact Hr|].
  eapply exec_ok_post; [exact He|]. simpl.
  apply list_elem_of_In, in_map_iff. exists q. by rewrite <- list_elem_of_In.
Qed.

(** A file keeps its content through a complete run in which every write
    to it writes that content. *)
Lemma run_plan_keeps_content ops w w' k c :
  run_plan fault ops w = (Ok, w') ->
  fs w !! k = Some (File c) ->
  (forall path' c', WriteText path' c' ∈ ops -> segments path' = k -> c' = c) ->
  fs w' !! k = Some (File c).
Proof.
  revert w. induction ops as [|o ops IH]; intros w.
  - by intros [= <-].
  - intros (w1 & He & Hr)%run_plan_ok_cons Hk Hall.
    apply (IH _ Hr); [|intros ? ? ?; apply Hall; by apply list_elem_of_further].
    destruct (exec_frame _ _ _ _ k He) as [->|[(? & _)|(Hin & _ & _)]];
      [done|congruence|].
    destruct o as [path'|path' c'|line]; try by apply elem_of_nil in Hin.
    apply list_elem_of_singleton in Hin.
    rewrite (Hall path' c') in He by (apply list_elem_of_here || done).
    subst k. eapply exec_ok_post; [exact He|]. apply list_elem_of_here.
Qed.

(** After a complete run a written file holds the content written, when
    every write to it writes that content. *)
Lemma run_plan_ok_content ops w w' path c :
  run_plan fault ops w = (Ok, w') ->
  WriteText path c ∈ ops ->
  (forall path' c', WriteText path' c' ∈ ops ->
                    segments path' = segments path -> c' = c) ->
  fs w' !! segments path = Some (File c).
Proof.
  intros Hr Hin Hall. pose proof Hin as (ops1 & ops2 & ->)%list_elem_of_split.
  apply run_plan_ok_app in Hr as (w1 & _ & Hr).
  apply run_plan_ok_cons in Hr as (w2 & He & Hr).
  eapply run_plan_keeps_content; [exact Hr| |].
  - eapply exec_ok_post; [exact He|]. apply list_elem_of_here.
  - intros path' c' Hin'. apply Hall.
    apply elem_of_app. right. by apply list_elem_of_further.
Qed.

Lemma apply_writes_app ws1 ws2 m :
  apply_writes (ws1 ++ ws2) m = apply_writes ws2 (apply_writes ws1 m).
Proof. unfold apply_writes. by rewrite fold_left_app. Qed.

Lemma run_plan_ok_writes ops w w' :
  run_plan fault ops w = (Ok, w') ->
  fs w' = apply_writes (flat_map writes_of ops) (fs w).
Proof.
  revert w. induction ops as [|o ops IH]; intros w.
  - by intros [= <-].
  - intros (w1 & He & Hr)%run_plan_ok_cons. simpl.
    rewrite apply_writes_app, <- (exec_ok_writes _ _ _ He). by apply IH.
Qed.

Lemma lookup_apply_writes ws m k :
  apply_writes ws m !! k
  = match written k ws with Some e => Some e | None => m !! k end.
Proof.
  revert m. induction ws as [|[k' e'] ws IH]; intros m; [done|].
  change (apply_writes ((k', e') :: ws) m)
    with (apply_writes ws (<[k' := e']> m)).
  rewrite IH. simpl. destruct (written k ws); [done|].
  destruct (decide (k' = k)) as [->|Hne].
  - by rewrite lookup_insert_eq.
  - by rewrite lookup_insert_ne.
Qed.

(** Setting the same entries a second time changes nothing. *)
Lemma apply_writes_twice ws m :
  apply_writes ws (apply_writes ws m) = apply_writes ws m.
Proof.
  apply map_eq. intros k. rewrite !lookup_apply_writes.
  by destruct (written k ws).
Qed.

(** A complete run can be repeated from any later state. *)
Lemma run_plan_again ops w w1 u :
  run_plan fault ops w = (Ok, w1) ->
  (forall q, fs w1 !! q = Some Dir -> fs u !! q = Some Dir) ->
  (forall q c, fs w1 !! q = Some (File c) -> exists c', fs u !! q = Some (File c')) ->
  exists u', run_plan fault ops u = (Ok, u').
Proof.
  revert w u. induction ops as [|o ops IH]; intros w u; [by eauto|].
  intros (wa & He & Hr)%run_plan_ok_cons Hd Hf.
  destruct (exec_again _ _ _ u He) as [ua Hu].
  - intros q Hq. apply Hd. by eapply run_plan_dir_persists.
  - intros q c Hq.
    destruct (run_plan_file_persists _ _ _ _ _ _ Hr Hq) as [c1 Hc1]. by eauto.
  - destruct (IH _ ua Hr) as [u' Hu'].
    + intros q Hq. eapply exec_dir_persists; [exact Hu|]. by apply Hd.
    + intros q c Hq. destruct (Hf _ _ Hq) as [c1 Hc1].
      by eapply exec_file_persists.
    + exists u'. by rewrite run_plan_cons, seq_apply, Hu.
Qed.

(** Running a plan that completed a second time completes again and leaves
    the tree as the first run left it. *)
Lemma run_plan_twice ops w w1 :
  run_plan fault ops w = (Ok, w1) ->
  exists w2, run_plan fault ops w1 = (Ok, w2) /\ fs w2 = fs w1.
Proof.
  intros Hr. destruct (run_plan_again _ _ _ w1 Hr) as [w2 Hr2]; [done|by eauto|].
  exists w2. split; [done|].
  rewrite (run_plan_ok_writes _ _ _ Hr2), (run_plan_ok_writes _ _ _ Hr).
  apply apply_writes_twice.
Qed.

End RunFacts.

(** * The tree stays a tree *)

Section WellFormed.

Variable fault : syscall -> bool.

Implicit Types (m : gmap (list string) entry) (p q : list string).

Lemma is_dir_insert_new m p q e :
  m !! p = None -> is_dir m q = true -> is_dir (<[p := e]> m) q = true.
Proof.
  unfold is_dir. destruct q as [|x q]; [done|].
  destruct (m !! (x :: q)) as [[|c]|] eqn:Hq; try done.
  intros Hp _. rewrite lookup_insert_ne; [by rewrite Hq|]. congruence.
Qed.

Lemma well_formed_insert_dir m p :
  well_formed m -> m !! p = None -> p <> [] ->
  is_dir m (removelast p) = true -> well_formed (<[p := Dir]> m).
Proof.
  intros Hwf Hp Hne Hpar q e. rewrite lookup_insert.
  destruct (decide (p = q)) as [<-|Hq].
  - intros _. split; [done|]. by apply is_dir_insert_new.
  - intros Hq'. destruct (Hwf _ _ Hq') as [? ?].
    split; [done|]. by apply is_dir_insert_new.
Qed.

Lemma is_dir_insert_file m p q c :
  m !! p <> Some Dir -> is_dir m q = true ->
  is_dir (<[p := File c]> m) q = true.
Proof.
  unfold is_dir. destruct q as [|x q]; [done|].
  destruct (m !! (x :: q)) as [[|c']|] eqn:Hq; try done.
  intros Hp _. rewrite lookup_insert_ne; [by rewrite Hq|]. congruence.
Qed.

Lemma well_formed_insert_file m p c :
  well_formed m -> m !! p <> Some Dir -> p <> [] ->
  is_dir m (removelast p) = true -> well_formed (<[p := File c]> m).
Proof.
  intros Hwf Hp Hne Hpar q e. rewrite lookup_insert.
  destruct (decide (p = q)) as [<-|Hq].
  - intros _. split; [done|]. by apply is_dir_insert_file.
  - intros Hq'. destruct (Hwf _ _ Hq') as [? ?].
    split; [done|]. by apply is_dir_insert_file.
Qed.

Lemma mkdir_chain_well_formed (todo above : list string) m r m' :
  well_formed m -> is_dir m above = true ->
  mkdir_chain fault above todo m = (r, m') -> well_formed m'.
Proof.
  revert above m. induction todo as [|seg rest IH]; intros above m Hwf Hab; simpl.
  - by intros [= _ <-].
  - destruct (m !! (above ++ [seg])) as [[|c]|] eqn:Hp.
    + apply IH; [done|]. unfold is_dir. rewrite Hp. by destruct (above ++ [seg]).
    + by intros [= _ <-].
    + destruct (fault _); [by intros [= _ <-]|].
      apply IH.
      * apply well_formed_insert_dir; [done|done|by destruct above|].
        by rewrite removelast_last.
      * unfold is_dir. rewrite lookup_insert_eq. by destruct (above ++ [seg]).
Qed.

Lemma exec_well_formed (o : op) (w : world) r (w' : world) :
  well_formed (fs w) -> exec fault o w = (r, w') -> well_formed (fs w').
Proof.
  intros Hwf. destruct o as [name|name content|line]; cbn [exec].
  - intros [_ [[_ ->]|Hc]]%makedirs_inv; [done|].
    eapply (mkdir_chain_well_formed _ []); [exact Hwf|done|exact Hc].
  - unfold write_text.
    destruct (open_error fault (fs w) name) as [e|] eqn:Ho;
      [by intros [= _ <-]|].
    apply open_error_None in Ho as (_ & Hpar & Hne & Hnd & _ & _).
    destruct (fault _); intros [= _ <-]; by apply well_formed_insert_file.
  - by intros [= _ <-].
Qed.

Lemma run_plan_well_formed (ops : list op) (w : world) r (w' : world) :
  well_formed (fs w) -> run_plan fault ops w = (r, w') -> well_formed (fs w').
Proof.
  revert w. induction ops as [|o ops IH]; intros w Hwf.
  - by intros [= _ <-].
  - intros [(e & He & _)|(w1 & He & Hr)]%run_plan_step.
    + by eapply exec_well_formed.
    + eapply IH; [|exact Hr]. by eapply exec_well_formed.
Qed.

(** Whatever its outcome, a run of the script on a tree leaves a tree. *)
Lemma create_template_well_formed (base_path : string) (w : world) r (w' : world) :
  well_formed (fs w) -> create_template fault base_path w = (r, w') ->
  well_formed (fs w').
Proof.
  rewrite create_template_plan. apply run_plan_well_formed.
Qed.

End WellFormed.

(** * The plan of a structure *)

(** Induction on a structure: the dicts nested in it come with the
    hypothesis. *)
Lemma pydict_nested_ind (Q : pydict -> Prop) :
  Q DNil ->
  (forall name d rest, Q d -> Q rest -> Q (DCons name (PDict d) rest)) ->
  (forall name l rest, Q rest -> Q (DCons name (PList l) rest)) ->
  (forall name rest, Q rest -> Q (DCons name POther rest)) ->
  forall structure, Q structure.
Proof.
  intros Hnil Hdict Hlist Hother structure.
  induction structure using pydict_mut with
    (P := fun content => match content with PDict d => Q d | _ => True end);
    try exact I; try assumption.
  destruct content as [d|l|]; auto.
Qed.

Lemma join_chain_cons (current_path name : string) (ks : list string) :
  join_chain current_path (name :: ks)
  = join_chain (os_path_join current_path name) ks.
Proof. reflexivity. Qed.

Lemma elem_of_map {A B : Type} (f : A -> B) (l : list A) (y : B) :
  y ∈ map f l <-> exists x, y = f x /\ x ∈ l.
Proof.
  rewrite list_elem_of_In, in_map_iff. setoid_rewrite list_elem_of_In.
  split; intros (x & ? & ?); eauto.
Qed.

Lemma elem_of_file_plan (path : string) (l : list string) (o : op) :
  o ∈ file_plan path l <->
  exists f, f ∈ l /\
    (o = WriteText (os_path_join path f) (placeholder f)
     \/ o = PrintLine ("Created file: " +:+ os_path_join path f)).
Proof.
  unfold file_plan. rewrite list_elem_of_In, in_flat_map.
  setoid_rewrite list_elem_of_In. split.
  - intros (f & Hf & [<-|[<-|[]]]); eauto.
  - intros (f & Hf & [->| ->]); exists f; simpl; by eauto.
Qed.

(** Every folder of the structure is made. *)
Lemma plan_folder (structure : pydict) :
  forall current_path ks,
    ks ∈ folder_chains structure ->
    Makedirs (join_chain current_path ks) ∈ plan current_path structure.
Proof.
  induction structure as [|name d rest IHd IHrest|name l rest IHrest|name rest IHrest]
    using pydict_nested_ind; intros current_path ks; cbn [folder_chains plan].
  - by intros ?%elem_of_nil.
  - rewrite !elem_of_app, !elem_of_cons, elem_of_map.
    intros [[->|(ks' & -> & Hks')]|Hin]; [by auto| |by auto].
    left. right. right. rewrite join_chain_cons. by apply IHd.
  - rewrite !elem_of_app, !elem_of_cons.
    intros [[->|?%elem_of_nil]|Hin]; [by auto|done|by auto].
  - rewrite !elem_of_app. intros [?%elem_of_nil|Hin]; [done|by auto].
Qed.

(** Every listed file is written, with its placeholder. *)
Lemma plan_file (structure : pydict) :
  forall current_path ks f,
    (ks, f) ∈ leaf_files structure ->
    WriteText (os_path_join (join_chain current_path ks) f) (placeholder f)
      ∈ plan current_path structure.
Proof.
  induction structure as [|name d rest IHd IHrest|name l rest IHrest|name rest IHrest]
    using pydict_nested_ind; intros current_path ks f; cbn [leaf_files plan].
  - by intros ?%elem_of_nil.
  - rewrite !elem_of_app, !elem_of_cons, elem_of_map.
    intros [([ks' f'] & [= -> ->] & Hin)|Hin]; [|by auto].
    left. right. right. rewrite join_chain_cons. by apply IHd.
  - rewrite !elem_of_app, !elem_of_cons, elem_of_map.
    intros [(f' & [= -> ->] & Hin)|Hin]; [|by auto].
    left. right. right. apply elem_of_file_plan. by eauto.
  - rewrite !elem_of_app. intros [?%elem_of_nil|Hin]; [done|by auto].
Qed.

(** Nothing else is made or written. *)
Lemma plan_makedirs_inv (structure : pydict) :
  forall current_path path,
    Makedirs path ∈ plan current_path structure ->
    exists ks, ks ∈ folder_chains structure /\ path = join_chain current_path ks.
Proof.
  induction structure as [|name d rest IHd IHrest|name l rest IHrest|name rest IHrest]
    using pydict_nested_ind; intros current_path path; cbn [folder_chains plan].
  - by intros ?%elem_of_nil.
  - rewrite !elem_of_app, !elem_of_cons. setoid_rewrite elem_of_app.
    setoid_rewrite elem_of_cons. setoid_rewrite elem_of_map.
    intros [[[= ->]|[[=]|Hin]]|Hin].
    + exists [name]. by auto.
    + destruct (IHd _ _ Hin) as (ks & Hks & ->).
      exists (name :: ks). by eauto 10.
    + destruct (IHrest _ _ Hin) as (ks & Hks & ->). by eauto.
  - rewrite !elem_of_app, !elem_of_cons. setoid_rewrite elem_of_app.
    intros [[[= ->]|[[=]|Hin]]|Hin].
    + exists [name]. split; [|done]. left. apply list_elem_of_here.
    + apply elem_of_file_plan in Hin as (f & _ & [[=]|[=]]).
    + destruct (IHrest _ _ Hin) as (ks & Hks & ->). by eauto.
  - rewrite !elem_of_app. setoid_rewrite elem_of_app.
    intros [?%elem_of_nil|Hin]; [done|].
    destruct (IHrest _ _ Hin) as (ks & Hks & ->). by eauto.
Qed.

Lemma plan_write_inv (structure : pydict) :
  forall current_path path c,
    WriteText path c ∈ plan current_path structure ->
    exists ks f, (ks, f) ∈ leaf_files structure
                 /\ path = os_path_join (join_chain current_path ks) f
                 /\ c = placeholder f.
Proof.
  induction structure as [|name d rest IHd IHrest|name l rest IHrest|name rest IHrest]
    using pydict_nested_ind; intros current_path path c; cbn [leaf_files plan].
  - by intros ?%elem_of_nil.
  - rewrite !elem_of_app, !elem_of_cons. setoid_rewrite elem_of_app.
    setoid_rewrite elem_of_map.
    intros [[[=]|[[=]|Hin]]|Hin].
    + destruct (IHd _ _ _ Hin) as (ks & f & Hks & -> & ->).
      exists (name :: ks), f. split; [|done]. left. by exists (ks, f).
    + destruct (IHrest _ _ _ Hin) as (ks & f & Hks & -> & ->). by eauto 10.
  - rewrite !elem_of_app, !elem_of_cons. setoid_rewrite elem_of_app.
    setoid_rewrite elem_of_map.
    intros [[[=]|[[=]|Hin]]|Hin].
    + apply elem_of_file_plan in Hin as (f & Hf & [[= -> ->]|[=]]).
      exists [name], f. split; [|done]. left. by exists f.
    + destruct (IHrest _ _ _ Hin) as (ks & f & Hks & -> & ->). by eauto 10.
  - rewrite !elem_of_app. setoid_rewrite elem_of_app.
    intros [?%elem_of_nil|Hin]; [done|].
    destruct (IHrest _ _ _ Hin) as (ks & f & Hks & -> & ->). by eauto 10.
Qed.

(** In a structure of valid names, chains and file names are valid. *)
Lemma valid_folder_chain (structure : pydict) (ks : list string) :
  valid_names structure = true -> ks ∈ folder_chains structure ->
  forallb valid_name ks = true.
Proof.
  revert ks.
  induction structure as [|name d rest IHd IHrest|name l rest IHrest|name rest IHrest]
    using pydict_nested_ind; intros ks; cbn [folder_chains valid_names];
    rewrite ?andb_true_iff.
  - by intros _ ?%elem_of_nil.
  - rewrite !elem_of_app, !elem_of_cons, elem_of_map.
    intros [[Hn Hd] Hr] [[->|(ks' & -> & Hks')]|Hin]; [| |by auto].
    + simpl. by rewrite Hn.
    + simpl. rewrite Hn. by apply IHd.
  - rewrite !elem_of_app. intros [[Hn Hl] Hr] [Hin|Hin]; [|by auto].
    apply list_elem_of_singleton in Hin as ->. simpl. by rewrite Hn.
  - rewrite !elem_of_app. intros [_ Hr] [?%elem_of_nil|Hin]; [done|by auto].
Qed.

Lemma valid_leaf_file (structure : pydict) (ks : list string) (f : string) :
  valid_names structure = true -> (ks, f) ∈ leaf_files structure ->
  forallb valid_name ks = true /\ valid_name f = true.
Proof.
  revert ks.
  induction structure as [|name d rest IHd IHrest|name l rest IHrest|name rest IHrest]
    using pydict_nested_ind; intros ks; cbn [leaf_files valid_names];
    rewrite ?andb_true_iff.
  - by intros _ ?%elem_of_nil.
  - rewrite !elem_of_app, elem_of_map.
    intros [[Hn Hd] Hr] [([ks' f'] & [= -> ->] & Hin)|Hin]; [|by auto].
    simpl. rewrite Hn. by apply IHd.
  - rewrite !elem_of_app, elem_of_map.
    intros [[Hn Hl] Hr] [(f' & [= -> ->] & Hin)|Hin]; [|by auto].
    simpl. rewrite Hn. split; [done|].
    rewrite forallb_forall in Hl. by apply Hl, list_elem_of_In.
  - rewrite !elem_of_app. intros [_ Hr] [?%elem_of_nil|Hin]; [done|by auto].
Qed.

Lemma folder_chains_nonempty (structure : pydict) (ks : list string) :
  ks ∈ folder_chains structure -> ks <> [].
Proof.
  revert ks.
  induction structure as [|name d rest IHd IHrest|name l rest IHrest|name rest IHrest]
    using pydict_nested_ind; intros ks; cbn [folder_chains].
  - by intros ?%elem_of_nil.
  - rewrite !elem_of_app, !elem_of_cons, elem_of_map.
    intros [[->|(ks' & -> & _)]|Hin]; [done|done|by auto].
  - rewrite !elem_of_app, !elem_of_cons.
    intros [[->|?%elem_of_nil]|Hin]; [done|done|by auto].
  - rewrite !elem_of_app. intros [?%elem_of_nil|Hin]; [done|by auto].
Qed.

(** The folder of a listed file is a folder of the structure. *)
Lemma leaf_folder (structure : pydict) (ks : list string) (f : string) :
  (ks, f) ∈ leaf_files structure -> ks ∈ folder_chains structure.
Proof.
  revert ks.
  induction structure as [|name d rest IHd IHrest|name l rest IHrest|name rest IHrest]
    using pydict_nested_ind; intros ks; cbn [folder_chains leaf_files].
  - by intros ?%elem_of_nil.
  - rewrite !elem_of_app, !elem_of_cons, !elem_of_map.
    intros [([ks' f'] & [= -> ->] & Hin)|Hin]; [|by auto].
    left. right. exists ks'. by auto.
  - rewrite !elem_of_app, !elem_of_cons, !elem_of_map.
    intros [(f' & [= -> ->] & Hin)|Hin]; by auto.
  - rewrite !elem_of_app. intros [?%elem_of_nil|Hin]; [done|by auto].
Qed.

Lemma segments_target (current_path : string) (ks : list string) (f : string) :
  forallb valid_name ks = true -> valid_name f = true ->
  segments (os_path_join (join_chain current_path ks) f)
  = segments current_path ++ ks ++ [f].
Proof.
  intros Hks Hf. rewrite segments_join, segments_join_chain by done.
  by rewrite <- app_assoc.
Qed.

(** * The outcome of a complete run *)

Section Completion.

Variable fault : syscall -> bool.

Lemma folder_dir (current_path : string) (structure : pydict) (w w' : world)
  (ks : list string) :
  valid_names structure = true ->
  build_structure fault current_path structure w = (Ok, w') ->
  ks ∈ folder_chains structure ->
  fs w' !! (segments current_path ++ ks) = Some Dir.
Proof.
  intros Hv Hb Hks. rewrite build_structure_plan in Hb.
  pose proof (valid_folder_chain _ _ Hv Hks) as Hvk.
  eapply run_plan_ok_folder; [exact Hb|by apply plan_folder|].
  rewrite segments_join_chain by done.
  apply (chain_paths_last []).
  intros [_ ?]%app_eq_nil. by eapply folder_chains_nonempty.
Qed.

Lemma leaf_content (current_path : string) (structure : pydict) (w w' : world)
  (ks : list string) (f : string) :
  valid_names structure = true ->
  build_structure fault current_path structure w = (Ok, w') ->
  (ks, f) ∈ leaf_files structure ->
  fs w' !! (segments current_path ++ ks ++ [f]) = Some (File (placeholder f)).
Proof.
  intros Hv Hb Hkf. rewrite build_structure_plan in Hb.
  destruct (valid_leaf_file _ _ _ Hv Hkf) as [Hvk Hvf].
  rewrite <- (segments_target current_path ks f) by done.
  eapply run_plan_ok_content; [exact Hb|by apply plan_file|].
  intros path' c' (ks' & f' & Hkf' & -> & ->)%plan_write_inv.
  destruct (valid_leaf_file _ _ _ Hv Hkf') as [Hvk' Hvf'].
  rewrite !segments_target by done.
  intros Heq%app_inv_head. apply app_inj_tail in Heq as [_ ->]. done.
Qed.

End Completion.

(** C2. After a run of [build_structure] in which no call fails, there is a
    directory at the path of every key whose value is a dict or a list, at
    every level of the nesting, and every file name listed for a folder is a
    file directly inside that folder. *)
Theorem build_structure_complete (fault : syscall -> bool)
  (current_path : string) (structure : pydict) (w w' : world) :
  valid_names structure = true ->
  build_structure fault current_path structure w = (Ok, w') ->
  (forall ks, ks ∈ folder_chains structure ->
     fs w' !! (segments current_path ++ ks) = Some Dir)
  /\ (forall ks f, (ks, f) ∈ leaf_files structure ->
        fs w' !! (segments current_path ++ ks) = Some Dir
        /\ exists c, fs w' !! (segments current_path ++ ks ++ [f]) = Some (File c)).
Proof.
  intros Hv Hb. split.
  - intros ks Hks. by eapply folder_dir.
  - intros ks f Hkf. split.
    + eapply folder_dir; [done..|]. by eapply leaf_folder.
    + exists (placeholder f). by eapply leaf_content.
Qed.

(** * The title of a placeholder *)

Lemma replace_from_cons (old new : string) (c : ascii) (s : string) :
  replace_from old new 0 (String c s)
  = if String.prefix old (String c s)
    then new +:+ replace_from old new (String.length old - 1) s
    else String c (replace_from old new 0 s).
Proof. reflexivity. Qed.

Lemma occurs_cons (old : string) (c : ascii) (s : string) :
  occurs old (String c s) = String.prefix old (String c s) || occurs old s.
Proof. reflexivity. Qed.

(** Where [old] does not occur, [replace] changes nothing. *)
Lemma replace_absent (old new s : string) :
  occurs old s = false -> replace_from old new 0 s = s.
Proof.
  induction s as [|c s IH]; [reflexivity|].
  rewrite occurs_cons, replace_from_cons.
  intros [-> Hs]%orb_false_elim. by rewrite IH.
Qed.

Lemma length_append (a b : string) :
  String.length (a +:+ b) = String.length a + String.length b.
Proof.
  induction a as [|c a IH]; [reflexivity|].
  rewrite append_cons. simpl. by rewrite IH.
Qed.

Lemma substring_append (a b : string) :
  String.substring 0 (String.length a) (a +:+ b) = a.
Proof.
  induction a as [|c a IH].
  - change (EmptyString +:+ b) with b. by destruct b.
  - rewrite append_cons. simpl. by rewrite IH.
Qed.

Lemma endswith_append (a suf : string) : endswith (a +:+ suf) suf = true.
Proof.
  induction a as [|c a IH].
  - change (EmptyString +:+ suf) with suf.
    destruct suf as [|x suf]; cbn [endswith]; by rewrite String.eqb_refl.
  - rewrite append_cons, endswith_cons, IH. apply orb_true_r.
Qed.

Lemma strip_md_suffix_append (g : string) : strip_md_suffix (g +:+ ".md") = g.
Proof.
  unfold strip_md_suffix. rewrite endswith_append, length_append.
  replace (String.length g + String.length ".md" - 3) with (String.length g)
    by (simpl; lia).
  apply substring_append.
Qed.

(** An occurrence of ".md" cannot straddle the end of [g] in [g.md]. *)
Lemma prefix_md_boundary (c : ascii) (g : string) :
  String.prefix ".md" (String c g +:+ ".md") = String.prefix ".md" (String c g).
Proof.
  rewrite append_cons, !string_prefix_cons.
  destruct (ascii_dec "." c) as [_|_]; [|reflexivity].
  destruct g as [|c2 g]; [reflexivity|].
  rewrite append_cons, !string_prefix_cons.
  destruct (ascii_dec "m" c2) as [_|_]; [|reflexivity].
  destruct g as [|c3 g]; [reflexivity|].
  rewrite append_cons, !string_prefix_cons.
  destruct (ascii_dec "d" c3) as [_|_]; [|reflexivity].
  by destruct g.
Qed.

Lemma replace_md_suffix (g : string) :
  occurs ".md" g = false ->
  replace_from ".md" EmptyString 0 (g +:+ ".md") = g.
Proof.
  induction g as [|c g IH]; [reflexivity|].
  rewrite occurs_cons. intros [Hp Hg]%orb_false_elim.
  pose proof (prefix_md_boundary c g) as Hb. rewrite Hp in Hb.
  rewrite append_cons in *. rewrite replace_from_cons, Hb, IH by done.
  reflexivity.
Qed.

(** When ".md" occurs in a file name as its trailing extension only, or not
    at all, removing every occurrence strips the extension. *)
Lemma title_agrees (f : string) :
  occurs ".md" (strip_md_suffix f) = false ->
  str_replace f ".md" EmptyString = strip_md_suffix f.
Proof.
  unfold str_replace. destruct (endswith f ".md") eqn:He.
  - destruct (endswith_suffix _ _ He) as [g ->].
    rewrite strip_md_suffix_append. apply replace_md_suffix.
  - unfold strip_md_suffix. rewrite He. apply replace_absent.
Qed.

Lemma placeholder_agrees (f : string) :
  occurs ".md" (strip_md_suffix f) = false ->
  placeholder f = spec_placeholder f.
Proof.
  intros Hf. unfold placeholder, spec_placeholder, spec_title.
  by rewrite title_agrees.
Qed.

(** * The scenarios of the specification, run *)

Example placeholder_calculus_notes :
  placeholder "Calculus_Notes.md"
  = "# Calculus Notes" +:+ newline +:+ newline
    +:+ "Template content for Calculus_Notes.md.".
Proof. reflexivity. Qed.

Example placeholder_one_on_one :
  placeholder "One_on_One.md"
  = "# One on One" +:+ newline +:+ newline
    +:+ "Template content for One_on_One.md.".
Proof. reflexivity. Qed.

Example syllabus_generated :
  let run := create_template no_fault "/tmp/x" empty_world in
  run.1 = Ok
  /\ fs run.2 !! ["tmp"; "x"; "University"; "Semester 1";
                  "Computer Science 101"; "Syllabus.md"]
     = Some (File ("# Syllabus" +:+ newline +:+ newline
                   +:+ "Template content for Syllabus.md."))
  /\ length (log run.2) = 76.
Proof. vm_compute. repeat split. Qed.

(** A run cut short by the environment: the folders before "Notes" are
    complete, "Notes" and "Archive" are not there, and the refused call is the
    last one logged. *)
Example notes_refused :
  let run := create_template notes_denied "/tmp/x" empty_world in
  run.1 = Raise PermissionError
  /\ fs run.2 !! ["tmp"; "x"; "Work"; "Admin"; "Expenses.md"]
     = Some (File (placeholder "Expenses.md"))
  /\ fs run.2 !! ["tmp"; "x"; "Notes"] = None
  /\ fs run.2 !! ["tmp"; "x"; "Archive"] = None
  /\ last (log run.2) = Some (Makedirs "/tmp/x/Notes").
Proof. vm_compute. repeat split. Qed.

(** * The claims *)

(** A statement that completes, with the state it reaches. *)
Lemma completes_eta (c : cmd) (w : world) :
  (c w).1 = Ok -> c w = (Ok, (c w).2).
Proof. destruct (c w) as [r w']. simpl. by intros ->. Qed.

(** Every file name of the template carries ".md" once, as its trailing
    extension. *)
Lemma template_file_names :
  Forall (fun kf => occurs ".md" (strip_md_suffix kf.2) = false)
         (leaf_files template).
Proof. apply Forall_fold_right. vm_compute. tauto. Qed.

(** C1. The script generates the files of the template and no others:
    [build_structure] is called with the template (line 50) and with the
    dicts nested in it (line 39).  For every file name listed in the
    template, line 46 computes "# " + title + two line feeds + "Template
    content for " + file name + ".", where the title is the file name with
    its trailing ".md" stripped and every underscore replaced by a space;
    after a run of [create_template] in which no call fails, the file of
    that name holds this content. *)
Theorem placeholder_content (fault : syscall -> bool) (base_path : string)
  (w w' : world) (ks : list string) (f : string) :
  create_template fault base_path w = (Ok, w') ->
  (ks, f) ∈ leaf_files template ->
  placeholder f = spec_placeholder f
  /\ fs w' !! (segments base_path ++ ks ++ [f])
     = Some (File (spec_placeholder f)).
Proof.
  intros Hrun Hkf.
  assert (Hf : placeholder f = spec_placeholder f).
  { apply placeholder_agrees.
    pose proof template_file_names as Hall.
    rewrite Forall_forall in Hall. exact (Hall (ks, f) Hkf). }
  split; [exact Hf|]. rewrite <- Hf.
  unfold create_template, seq in Hrun. cbn [print] in Hrun.
  destruct (build_structure fault base_path template _) as [[|e] w2] eqn:Hb;
    [|discriminate].
  injection Hrun as <-. simpl.
  eapply leaf_content; [|exact Hb|exact Hkf].
  vm_compute. reflexivity.
Qed.

Lemma placeholder_content_witness :
  placeholder "One_on_One.md" = spec_placeholder "One_on_One.md"
  /\ fs (create_template no_fault "/tmp/x" empty_world).2
       !! (segments "/tmp/x" ++ ["Work"; "Meetings"] ++ ["One_on_One.md"])
     = Some (File (spec_placeholder "One_on_One.md")).
Proof.
  apply (placeholder_content no_fault "/tmp/x" empty_world).
  - apply completes_eta. vm_compute. reflexivity.
  - vm_compute. repeat constructor.
Defined.

Lemma raises_eta (c : cmd) (w : world) (e : oserror) :
  (c w).1 = Raise e -> c w = (Raise e, (c w).2).
Proof. destruct (c w) as [r w']. simpl. by intros ->. Qed.

(** C5. When a listed file exists with other content before the run, a run
    of [build_structure] in which no call fails leaves the generated content
    in it, and what the run calls and prints is the plan of the structure,
    as for any other run: nothing reports the overwrite. *)
Theorem existing_file_overwritten (fault : syscall -> bool)
  (current_path : string) (structure : pydict) (w w' : world)
  (ks : list string) (f old : string) :
  valid_names structure = true ->
  (ks, f) ∈ leaf_files structure ->
  fs w !! (segments current_path ++ ks ++ [f]) = Some (File old) ->
  old <> placeholder f ->
  build_structure fault current_path structure w = (Ok, w') ->
  fs w' !! (segments current_path ++ ks ++ [f]) = Some (File (placeholder f))
  /\ log w' = log w ++ plan current_path structure.
Proof.
  intros Hv Hkf _ _ Hb. split.
  - by eapply leaf_content.
  - rewrite build_structure_plan in Hb. by apply run_plan_ok_log in Hb.
Qed.

Lemma existing_file_overwritten_witness :
  fs (build_structure no_fault "/tmp/x" template edited_world).2
    !! (segments "/tmp/x" ++ ["Work"; "Meetings"] ++ ["One_on_One.md"])
  = Some (File (placeholder "One_on_One.md"))
  /\ log (build_structure no_fault "/tmp/x" template edited_world).2
     = log edited_world ++ plan "/tmp/x" template.
Proof.
  apply (existing_file_overwritten no_fault "/tmp/x" template edited_world _
           ["Work"; "Meetings"] "One_on_One.md" "my own notes").
  - vm_compute. reflexivity.
  - vm_compute. repeat constructor.
  - vm_compute. reflexivity.
  - vm_compute. discriminate.
  - apply completes_eta. vm_compute. reflexivity.
Defined.



Lemma build_structure_complete_witness :
  let w' := (build_structure no_fault "/tmp/x" template empty_world).2 in
  (forall ks, ks ∈ folder_chains template ->
     fs w' !! (segments "/tmp/x" ++ ks) = Some Dir)
  /\ (forall ks f, (ks, f) ∈ leaf_files template ->
        fs w' !! (segments "/tmp/x" ++ ks) = Some Dir
        /\ exists c, fs w' !! (segments "/tmp/x" ++ ks ++ [f]) = Some (File c)).
Proof.
  apply (build_structure_complete no_fault "/tmp/x" template empty_world).
  - vm_compute. reflexivity.
  - apply completes_eta. vm_compute. reflexivity.
Defined.

(** The same for the whole script. *)
Lemma create_template_twice (fault : syscall -> bool) (base_path : string)
  (w w1 : world) :
  create_template fault base_path w = (Ok, w1) ->
  exists w2, create_template fault base_path w1 = (Ok, w2) /\ fs w2 = fs w1.
Proof.
  rewrite create_template_plan. intros Hb.
  destruct (run_plan_twice _ _ _ _ Hb) as (w2 & Hb2 & Heq).
  exists w2. by rewrite create_template_plan.
Qed.



Lemma plan_prune (structure : pydict) :
  forall current_path, plan current_path (prune structure) = plan current_path structure.
Proof.
  induction structure as [|name d rest IHd IHrest|name l rest IHrest|name rest IHrest]
    using pydict_nested_ind; intros current_path; cbn [prune plan].
  - reflexivity.
  - by rewrite IHd, IHrest.
  - by rewrite IHrest.
  - by rewrite IHrest.
Qed.

(** C8. An entry whose value is neither a dict nor a list is passed over:
    nothing is called for it, no error is raised, and the entries after it
    are processed; at whatever level such entries stand, the run is the run
    on the structure without them. *)
Theorem other_values_skipped (fault : syscall -> bool) (current_path name : string)
  (rest structure : pydict) (w : world) :
  build_structure fault current_path (DCons name POther rest) w
  = build_structure fault current_path rest w
  /\ build_structure fault current_path (DCons name POther DNil) w = (Ok, w)
  /\ plan current_path (DCons name POther rest) = plan current_path rest
  /\ build_structure fault current_path structure w
     = build_structure fault current_path (prune structure) w.
Proof.
  repeat split.
  by rewrite !build_structure_plan, plan_prune.
Qed.

(** * Recursion depth *)

Section Depth.

Variable fault : syscall -> bool.

Lemma nesting_depth_pos (structure : pydict) : 1 <= nesting_depth structure.
Proof. destruct structure as [|name [d|l|] rest]; simpl; lia. Qed.

Lemma build_structure_on_cons (n : nat) (current_path name : string)
  (content : pyval) (rest : pydict) (w : world) :
  build_structure_on fault (S n) current_path (DCons name content rest) w
  = let path := os_path_join current_path name in
    match
      match content with
      | PDict d =>
          match (makedirs fault path ;; print ("Created folder: " +:+ path)) w with
          | (Ok, w1) => build_structure_on fault n path d w1
          | (Raise e, w1) => Some (Raise e, w1)
          end
      | PList l =>
          Some ((makedirs fault path ;; print ("Created folder: " +:+ path) ;;
                 for_each l (write_file fault path)) w)
      | POther => Some (Ok, w)
      end
    with
    | Some (Ok, w2) => build_structure_on fault (S n) current_path rest w2
    | Some (Raise e, w2) => Some (Raise e, w2)
    | None => None
    end.
Proof. reflexivity. Qed.

Lemma build_structure_cons (current_path name : string) (content : pyval)
  (rest : pydict) (w : world) :
  build_structure fault current_path (DCons name content rest) w
  = let path := os_path_join current_path name in
    match
      match content with
      | PDict d =>
          match (makedirs fault path ;; print ("Created folder: " +:+ path)) w with
          | (Ok, w1) => build_structure fault path d w1
          | (Raise e, w1) => (Raise e, w1)
          end
      | PList l =>
          (makedirs fault path ;; print ("Created folder: " +:+ path) ;;
           for_each l (write_file fault path)) w
      | POther => (Ok, w)
      end
    with
    | (Ok, w2) => build_structure fault current_path rest w2
    | (Raise e, w2) => (Raise e, w2)
    end.
Proof.
  cbn [build_structure]. cbv zeta. rewrite seq_apply.
  destruct content as [d|l|]; [|reflexivity..].
  rewrite <- seq_assoc, seq_apply. reflexivity.
Qed.

(** With a frame for each level of nesting the traversal runs as
    [build_structure] does. *)
Lemma build_structure_on_enough (structure : pydict) :
  forall n current_path w,
    nesting_depth structure <= n ->
    build_structure_on fault n current_path structure w
    = Some (build_structure fault current_path structure w).
Proof.
  induction structure as [|name d rest IHd IHrest|name l rest IHrest|name rest IHrest]
    using pydict_nested_ind; intros n current_path w Hn;
    (destruct n as [|n];
     [match type of Hn with
      | nesting_depth ?s <= _ => pose proof (nesting_depth_pos s); lia
      end|]);
    [reflexivity|..]; cbn [nesting_depth] in Hn;
    rewrite build_structure_on_cons, build_structure_cons; cbv zeta.
  - destruct ((makedirs fault _ ;; print _) w) as [[|e] w1]; [|reflexivity].
    rewrite IHd by lia.
    destruct (build_structure fault _ d w1) as [[|e] w2]; [|reflexivity].
    apply IHrest. lia.
  - destruct ((makedirs fault _ ;; print _ ;; for_each _ _) w) as [[|e] w1];
      [|reflexivity].
    apply IHrest. lia.
  - apply IHrest. lia.
Qed.

(** A complete traversal uses a frame for each level of nesting: with
    fewer, a call finds no frame. *)
Lemma build_structure_on_short (structure : pydict) :
  forall n current_path w,
    n < nesting_depth structure ->
    (build_structure fault current_path structure w).1 = Ok ->
    build_structure_on fault n current_path structure w = None.
Proof.
  induction structure as [|name d rest IHd IHrest|name l rest IHrest|name rest IHrest]
    using pydict_nested_ind; intros [|n] current_path w Hn; try reflexivity;
    cbn [nesting_depth] in Hn; try lia; 
    rewrite build_structure_on_cons, build_structure_cons; cbv zeta.
  - destruct ((makedirs fault _ ;; print _) w) as [[|e] w1]; [|done].
    destruct (decide (n < nesting_depth d)) as [Hd|Hd].
    + destruct (build_structure fault _ d w1) as [[|e] w2] eqn:Hb; [|done].
      intros _. rewrite IHd; [done|done|by rewrite Hb].
    + rewrite build_structure_on_enough by lia.
      destruct (build_structure fault _ d w1) as [[|e] w2]; [|done].
      apply IHrest. lia.
  - destruct ((makedirs fault _ ;; print _ ;; for_each _ _) w) as [[|e] w1];
      [|done].
    apply IHrest. lia.
  - apply IHrest. lia.
Qed.

End Depth.

(** C7. The traversal of a structure terminates, with as many nested calls
    of [build_structure] as the structure has levels of nesting: on a stack
    with room for [nesting_depth structure] calls or more it runs to its end,
    complete or at the first call that fails, and a complete traversal does
    not fit in fewer. *)
Theorem build_structure_depth (fault : syscall -> bool) (current_path : string)
  (structure : pydict) (w : world) (n : nat) :
  nesting_depth structure <= n ->
  build_structure_on fault n current_path structure w
  = Some (build_structure fault current_path structure w)
  /\ (forall m, m < nesting_depth structure ->
        (build_structure fault current_path structure w).1 = Ok ->
        build_structure_on fault m current_path structure w = None).
Proof.
  intros Hn. split.
  - by apply build_structure_on_enough.
  - intros m. apply build_structure_on_short.
Qed.

Lemma build_structure_depth_witness :
  nesting_depth template = 3
  /\ build_structure_on no_fault 3 "/tmp/x" template empty_world
     = Some (build_structure no_fault "/tmp/x" template empty_world)
  /\ (forall m, m < nesting_depth template ->
        (build_structure no_fault "/tmp/x" template empty_world).1 = Ok ->
        build_structure_on no_fault m "/tmp/x" template empty_world = None).
Proof.
  split; [reflexivity|].
  apply (build_structure_depth no_fault "/tmp/x" template empty_world 3).
  vm_compute. lia.
Defined.

(** * The frame of a run *)

Lemma elem_of_folder_paths (ops : list op) (q : list string) :
  q ∈ folder_paths ops <->
  exists path, Makedirs path ∈ ops /\ q ∈ chain_paths [] (segments path).
Proof.
  unfold folder_paths. rewrite list_elem_of_In, in_flat_map.
  setoid_rewrite list_elem_of_In. split.
  - intros ([path|path c|line] & Ho & Hq); [by eauto|done..].
  - intros (path & Ho & Hq). by exists (Makedirs path).
Qed.

Lemma elem_of_file_paths (ops : list op) (q : list string) :
  q ∈ file_paths ops <-> exists path c, WriteText path c ∈ ops /\ q = segments path.
Proof.
  unfold file_paths. rewrite list_elem_of_In, in_flat_map.
  setoid_rewrite list_elem_of_In. split.
  - intros ([path|path c|line] & Ho & Hq); [done| |done].
    destruct Hq as [<-|[]]. by eauto.
  - intros (path & c & Ho & ->). exists (WriteText path c). split; [done|].
    by left.
Qed.

Lemma prefix_app_cases {A : Type} (q a b : list A) :
  q `prefix_of` a ++ b ->
  q `prefix_of` a \/ exists pre, pre <> [] /\ q = a ++ pre /\ pre `prefix_of` b.
Proof.
  revert q. induction a as [|x a IH]; intros q Hq.
  - destruct q as [|y q]; [left; by apply prefix_nil|].
    right. by exists (y :: q).
  - destruct q as [|y q]; [left; by apply prefix_nil|].
    simpl in Hq. pose proof (prefix_cons_inv_1 _ _ _ _ Hq) as ->.
    apply prefix_cons_inv_2 in Hq.
    destruct (IH _ Hq) as [?|(pre & ? & -> & ?)].
    + left. by apply prefix_cons.
    + right. by exists pre.
Qed.

(** The folders of a structure contain the folders above them. *)
Lemma folder_chains_prefix (structure : pydict) :
  forall ks pre,
    ks ∈ folder_chains structure -> pre <> [] -> pre `prefix_of` ks ->
    pre ∈ folder_chains structure.
Proof.
  induction structure as [|name d rest IHd IHrest|name l rest IHrest|name rest IHrest]
    using pydict_nested_ind; intros ks pre; cbn [folder_chains].
  - by intros ?%elem_of_nil.
  - rewrite !elem_of_app, !elem_of_cons, !elem_of_map.
    intros [[->|(ks' & -> & Hks')]|Hin] Hne Hpre; [| |by eauto].
    + destruct pre as [|x pre]; [done|].
      pose proof (prefix_cons_inv_1 _ _ _ _ Hpre) as ->.
      apply prefix_cons_inv_2, prefix_nil_inv in Hpre as ->. by auto.
    + destruct pre as [|x pre]; [done|].
      pose proof (prefix_cons_inv_1 _ _ _ _ Hpre) as ->.
      apply prefix_cons_inv_2 in Hpre.
      destruct pre as [|y pre]; [by auto|].
      left. right. exists (y :: pre). split; [done|]. by eapply IHd.
  - rewrite !elem_of_app, !elem_of_cons.
    intros [[->|?%elem_of_nil]|Hin] Hne Hpre; [|done|by eauto].
    destruct pre as [|x pre]; [done|].
    pose proof (prefix_cons_inv_1 _ _ _ _ Hpre) as ->.
    apply prefix_cons_inv_2, prefix_nil_inv in Hpre as ->. by auto.
  - rewrite !elem_of_app. intros [?%elem_of_nil|Hin] Hne Hpre; [done|by eauto].
Qed.

Section Frame.

Variable fault : syscall -> bool.

(** What a run of [build_structure] can change, whatever its outcome. *)
Lemma build_structure_changes (current_path : string) (structure : pydict)
  (w : world) (r : outcome) (w' : world) (q : list string) :
  build_structure fault current_path structure w = (r, w') ->
  fs w' !! q = fs w !! q
  \/ (fs w !! q = None /\ fs w' !! q = Some Dir
      /\ exists ks, ks ∈ folder_chains structure /\ q <> []
                    /\ q `prefix_of` segments (join_chain current_path ks))
  \/ (fs w !! q <> Some Dir /\ (exists c, fs w' !! q = Some (File c))
      /\ exists ks f, (ks, f) ∈ leaf_files structure
                      /\ q = segments (os_path_join (join_chain current_path ks) f)).
Proof.
  rewrite build_structure_plan. intros Hr.
  destruct (run_plan_frame _ _ _ _ _ q Hr)
    as [?|[(? & ? & Hq)|(Hq & ? & ?)]]; [by left| |].
  - right; left. split; [done|]. split; [done|].
    apply elem_of_folder_paths in Hq as (path & Hp & Hq).
    apply plan_makedirs_inv in Hp as (ks & Hks & ->).
    apply elem_of_chain_paths in Hq as (pre & Hne & Hpre & ->).
    exists ks. by eauto.
  - right; right. split; [done|]. split; [done|].
    apply elem_of_file_paths in Hq as (path & c & Hp & ->).
    apply plan_write_inv in Hp as (ks & f & Hkf & -> & _). by eauto.
Qed.

Lemma create_template_ok_inv (base_path : string) (w w' : world) :
  create_template fault base_path w = (Ok, w') ->
  exists w2,
    build_structure fault base_path template (started base_path w) = (Ok, w2)
    /\ fs w' = fs w2
    /\ log w' = log w2 ++ [PrintLine "Finished generating template."].
Proof.
  unfold create_template, seq. cbn [print]. fold (started base_path w).
  destruct (build_structure fault base_path template (started base_path w))
    as [[|e] w2]; [|done].
  intros [= <-]. by exists w2.
Qed.

End Frame.

(** C9 (as amended). For a base path without ".." components and a
    structure of valid names, a run of [build_structure], whatever its
    outcome, changes an entry of the tree in two ways only: it creates a
    missing directory at a join of the base path with keys of the template
    or at an ancestor of such a join (the base path and the directories above
    it are created when they are missing), and it writes a file, never in
    place of a directory, at a join with a listed file name.  Every other
    entry is left as it was.  When the base path exists with the directories
    above it, every path that changes is such a join. *)
Theorem build_structure_frame (fault : syscall -> bool) (current_path : string)
  (structure : pydict) (w : world) (r : outcome) (w' : world) :
  dotdot_free current_path = true ->
  valid_names structure = true ->
  build_structure fault current_path structure w = (r, w') ->
  (forall q,
      fs w' !! q = fs w !! q
      \/ (fs w !! q = None /\ fs w' !! q = Some Dir
          /\ exists ks, ks ∈ folder_chains structure /\ q <> []
                        /\ q `prefix_of` segments (join_chain current_path ks))
      \/ (fs w !! q <> Some Dir /\ (exists c, fs w' !! q = Some (File c))
          /\ exists ks f, (ks, f) ∈ leaf_files structure
                          /\ q = segments (os_path_join (join_chain current_path ks) f)))
  /\ ((forall p, p <> [] -> p `prefix_of` segments current_path ->
                 fs w !! p = Some Dir) ->
      forall q, fs w' !! q <> fs w !! q -> q ∈ derived_paths current_path structure).
Proof.
  intros _ Hv Hb. split.
  - intros q. by eapply build_structure_changes.
  - intros Hbase q Hq. unfold derived_paths. apply elem_of_app.
    destruct (build_structure_changes _ _ _ _ _ _ q Hb)
      as [?|[(Hn & _ & ks & Hks & Hne & Hpre)|(_ & _ & ks & f & Hkf & ->)]];
      [done| |].
    + left. pose proof (valid_folder_chain _ _ Hv Hks) as Hvk.
      rewrite segments_join_chain in Hpre by done.
      apply prefix_app_cases in Hpre as [Hpre|(pre & Hpne & -> & Hpre)].
      { rewrite (Hbase q) in Hn; done. }
      pose proof (folder_chains_prefix _ _ _ Hks Hpne Hpre) as Hin.
      apply elem_of_map. exists pre. split; [|done].
      rewrite segments_join_chain; [done|]. by eapply valid_folder_chain.
    + right. apply elem_of_map. by exists (ks, f).
Qed.

Lemma build_structure_frame_witness :
  let run := build_structure no_fault "/tmp/x" template edited_world in
  (forall q,
      fs run.2 !! q = fs edited_world !! q
      \/ (fs edited_world !! q = None /\ fs run.2 !! q = Some Dir
          /\ exists ks, ks ∈ folder_chains template /\ q <> []
                        /\ q `prefix_of` segments (join_chain "/tmp/x" ks))
      \/ (fs edited_world !! q <> Some Dir /\ (exists c, fs run.2 !! q = Some (File c))
          /\ exists ks f, (ks, f) ∈ leaf_files template
                          /\ q = segments (os_path_join (join_chain "/tmp/x" ks) f)))
  /\ ((forall p, p <> [] -> p `prefix_of` segments "/tmp/x" ->
                 fs edited_world !! p = Some Dir) ->
      forall q, fs run.2 !! q <> fs edited_world !! q ->
                q ∈ derived_paths "/tmp/x" template).
Proof.
  apply (build_structure_frame no_fault "/tmp/x" template edited_world Ok).
  - vm_compute. reflexivity.
  - vm_compute. reflexivity.
  - apply completes_eta. vm_compute. reflexivity.
Defined.

(** C9, as stated, fails: run on an empty tree with the base path
    "/srv/vault", the script creates the directory "/srv", which is not a
    join of the base path with keys or file names of the template. *)
Lemma build_structure_frame_counterexample :
  let run := build_structure no_fault "/srv/vault" template empty_world in
  run.1 = Ok
  /\ fs empty_world !! ["srv"] = None
  /\ fs run.2 !! ["srv"] = Some Dir
  /\ ["srv"] ∉ derived_paths "/srv/vault" template.
Proof.
  repeat split; try (vm_compute; reflexivity).
  intros Hin%list_elem_of_In. vm_compute in Hin.
  repeat (destruct Hin as [Hin|Hin]; [discriminate|]). done.
Qed.

(** * The template *)

Lemma template_valid : valid_names template = true.
Proof. vm_compute. reflexivity. Qed.

(** No folder of the template lies below "Archive". *)
Lemma template_below_archive_folder (ks q : list string) :
  ks ∈ folder_chains template -> "Archive" :: q `prefix_of` ks -> q = [].
Proof.
  intros Hin%list_elem_of_In Hpre. vm_compute in Hin.
  repeat (destruct Hin as [<-|Hin];
          [try (apply prefix_cons_inv_1 in Hpre; discriminate)|]);
    [|done].
  by apply prefix_cons_inv_2, prefix_nil_inv in Hpre.
Qed.

(** No file of the template lies below "Archive". *)
Lemma template_below_archive_file (ks q : list string) (f : string) :
  (ks, f) ∈ leaf_files template -> ks ++ [f] <> "Archive" :: q.
Proof.
  intros Hin%list_elem_of_In. vm_compute in Hin.
  repeat (destruct Hin as [[= <- <-]|Hin]; [discriminate|]). done.
Qed.

(** C6. A dict without items gets its own directory and nothing else: the
    only calls for it are the [makedirs] of its path and the line printed.
    For the entry "Archive" of the template: after a complete run of
    [create_template] the directory exists, every path below it is as it was
    before the run, and so the directory is empty when nothing was below it
    before. *)
Theorem archive_empty (fault : syscall -> bool) (base_path : string)
  (w w' : world) :
  create_template fault base_path w = (Ok, w') ->
  fs w' !! (segments base_path ++ ["Archive"]) = Some Dir
  /\ (forall q, q <> [] ->
        fs w' !! (segments base_path ++ "Archive" :: q)
        = fs w !! (segments base_path ++ "Archive" :: q))
  /\ ((forall q, q <> [] -> fs w !! (segments base_path ++ "Archive" :: q) = None) ->
      forall q, q <> [] -> fs w' !! (segments base_path ++ "Archive" :: q) = None)
  /\ (forall current_path name rest,
        plan current_path (DCons name (PDict DNil) rest)
        = Makedirs (os_path_join current_path name)
          :: PrintLine ("Created folder: " +:+ os_path_join current_path name)
          :: plan current_path rest).
Proof.
  intros (w2 & Hb & Hfs & _)%create_template_ok_inv. rewrite Hfs.
  assert (Hframe : forall q, q <> [] ->
            fs w2 !! (segments base_path ++ "Archive" :: q)
            = fs w !! (segments base_path ++ "Archive" :: q)).
  { intros q Hq.
    destruct (build_structure_changes _ _ _ _ _ _
                (segments base_path ++ "Archive" :: q) Hb)
      as [?|[(_ & _ & ks & Hks & _ & Hpre)|(_ & _ & ks & f & Hkf & Heq)]].
    - done.
    - rewrite segments_join_chain in Hpre
        by (eapply valid_folder_chain; [apply template_valid|done]).
      apply prefix_app_inv in Hpre.
      by apply template_below_archive_folder in Hpre.
    - destruct (valid_leaf_file _ _ _ template_valid Hkf) as [Hvk Hvf].
      rewrite segments_target in Heq by done.
      apply app_inv_head in Heq.
      by apply symmetry, template_below_archive_file in Heq. }
  split; [|split; [|split]].
  - eapply folder_dir; [apply template_valid|exact Hb|].
    apply list_elem_of_In. vm_compute. tauto.
  - exact Hframe.
  - intros Hnone q Hq. rewrite Hframe by done. by apply Hnone.
  - reflexivity.
Qed.

Lemma archive_empty_witness :
  let w' := (create_template no_fault "/tmp/x" empty_world).2 in
  fs w' !! (segments "/tmp/x" ++ ["Archive"]) = Some Dir
  /\ (forall q, q <> [] ->
        fs w' !! (segments "/tmp/x" ++ "Archive" :: q)
        = fs empty_world !! (segments "/tmp/x" ++ "Archive" :: q))
  /\ ((forall q, q <> [] ->
         fs empty_world !! (segments "/tmp/x" ++ "Archive" :: q) = None) ->
      forall q, q <> [] -> fs w' !! (segments "/tmp/x" ++ "Archive" :: q) = None)
  /\ (forall current_path name rest,
        plan current_path (DCons name (PDict DNil) rest)
        = Makedirs (os_path_join current_path name)
          :: PrintLine ("Created folder: " +:+ os_path_join current_path name)
          :: plan current_path rest).
Proof.
  apply (archive_empty no_fault "/tmp/x" empty_world).
  apply completes_eta. vm_compute. reflexivity.
Defined.

(** The calls of a structure are the calls of its items, in their order. *)
Lemma plan_items (current_path : string) (structure : pydict) :
  plan current_path structure
  = flat_map (entry_plan current_path) (items structure).
Proof.
  induction structure as [|name content rest IH]; [reflexivity|].
  cbn [plan items flat_map]. rewrite IH. unfold entry_plan. simpl.
  by destruct content.
Qed.

(** Whatever its outcome, a run has made the calls of the plan up to some
    point. *)
Lemma create_template_calls (fault : syscall -> bool) (base_path : string)
  (w : world) (r : outcome) (w' : world) :
  create_template fault base_path w = (r, w') ->
  exists n, log w' = log w ++ take n (template_plan base_path).
Proof.
  rewrite create_template_plan. destruct r as [|e]; intros Hr.
  - exists (length (template_plan base_path)).
    rewrite firstn_all. by apply run_plan_ok_log in Hr.
  - apply run_plan_raise in Hr as (before & failed & after & _ & -> & _ & _ & ->).
    exists (length (before ++ [failed])).
    replace (before ++ failed :: after) with ((before ++ [failed]) ++ after)
      by by rewrite <- app_assoc.
    by rewrite take_app_length.
Qed.

(** C10. For a base path, the calls of [create_template] and the lines it
    prints are those of one sequence, fixed by the base path and the order of
    the items of the template: every run makes an initial part of it, a
    complete run all of it, whatever the tree and the failures of the
    environment; after two complete runs every generated file holds the same
    content in both. *)
Theorem create_template_deterministic (fault1 fault2 : syscall -> bool)
  (base_path : string) (w1 w2 : world) (r1 r2 : outcome) (w1' w2' : world) :
  create_template fault1 base_path w1 = (r1, w1') ->
  create_template fault2 base_path w2 = (r2, w2') ->
  (exists n1 n2,
      log w1' = log w1 ++ take n1 (template_plan base_path)
      /\ log w2' = log w2 ++ take n2 (template_plan base_path))
  /\ template_plan base_path
     = PrintLine ("Starting template generation in " +:+ base_path +:+ "...")
       :: flat_map (entry_plan base_path) (items template)
       ++ [PrintLine "Finished generating template."]
  /\ (r1 = Ok -> r2 = Ok ->
      log w1' = log w1 ++ template_plan base_path
      /\ log w2' = log w2 ++ template_plan base_path
      /\ forall ks f, (ks, f) ∈ leaf_files template ->
           fs w1' !! (segments base_path ++ ks ++ [f]) = Some (File (placeholder f))
           /\ fs w2' !! (segments base_path ++ ks ++ [f]) = Some (File (placeholder f))).
Proof.
  intros H1 H2. split; [|split].
  - destruct (create_template_calls _ _ _ _ _ H1) as [n1 Hn1].
    destruct (create_template_calls _ _ _ _ _ H2) as [n2 Hn2]. by eauto.
  - unfold template_plan. by rewrite plan_items.
  - intros -> ->. split; [|split].
    + rewrite create_template_plan in H1. by apply run_plan_ok_log in H1.
    + rewrite create_template_plan in H2. by apply run_plan_ok_log in H2.
    + intros ks f Hkf.
      apply create_template_ok_inv in H1 as (u1 & Hb1 & -> & _).
      apply create_template_ok_inv in H2 as (u2 & Hb2 & -> & _).
      split; eapply leaf_content; eauto using template_valid.
Qed.

Lemma create_template_deterministic_witness :
  let w1' := (create_template no_fault "/tmp/x" empty_world).2 in
  let w2' := (create_template no_fault "/tmp/x" edited_world).2 in
  (exists n1 n2,
      log w1' = log empty_world ++ take n1 (template_plan "/tmp/x")
      /\ log w2' = log edited_world ++ take n2 (template_plan "/tmp/x"))
  /\ template_plan "/tmp/x"
     = PrintLine ("Starting template generation in " +:+ "/tmp/x" +:+ "...")
       :: flat_map (entry_plan "/tmp/x") (items template)
       ++ [PrintLine "Finished generating template."]
  /\ (Ok = Ok -> Ok = Ok ->
      log w1' = log empty_world ++ template_plan "/tmp/x"
      /\ log w2' = log edited_world ++ template_plan "/tmp/x"
      /\ forall ks f, (ks, f) ∈ leaf_files template ->
           fs w1' !! (segments "/tmp/x" ++ ks ++ [f]) = Some (File (placeholder f))
           /\ fs w2' !! (segments "/tmp/x" ++ ks ++ [f]) = Some (File (placeholder f))).
Proof.
  apply (create_template_deterministic no_fault no_fault "/tmp/x"
           empty_world edited_world Ok Ok).
  - apply completes_eta. vm_compute. reflexivity.
  - apply completes_eta. vm_compute. reflexivity.
Defined.

(** * Further properties of the script *)

(** ** Entries of the wrong kind in the way *)

(** X7. A file where the template wants a folder is never replaced: the run does
    not complete, and the path still holds a file after it. *)
Theorem folder_blocked_by_file (fault : syscall -> bool) (current_path : string)
  (structure : pydict) (w : world) (r : outcome) (w' : world)
  (ks : list string) (c : string) :
  valid_names structure = true ->
  ks ∈ folder_chains structure ->
  fs w !! (segments current_path ++ ks) = Some (File c) ->
  build_structure fault current_path structure w = (r, w') ->
  r <> Ok /\ exists c', fs w' !! (segments current_path ++ ks) = Some (File c').
Proof.
  intros Hv Hks Hfile Hb.
  assert (Hkeep : exists c', fs w' !! (segments current_path ++ ks) = Some (File c')).
  { rewrite build_structure_plan in Hb. by eapply run_plan_file_persists. }
  split; [|done]. intros ->. destruct Hkeep as [c' Hc'].
  rewrite (folder_dir fault current_path structure w w' ks) in Hc'; done.
Qed.

Lemma folder_blocked_by_file_witness :
  let run := build_structure no_fault "/tmp/x" template blocked_world in
  run.1 <> Ok
  /\ exists c', fs run.2 !! (segments "/tmp/x" ++ ["Work"]) = Some (File c').
Proof.
  apply (folder_blocked_by_file no_fault "/tmp/x" template blocked_world
           _ _ ["Work"] "not a folder").
  - vm_compute. reflexivity.
  - vm_compute. repeat constructor.
  - vm_compute. reflexivity.
  - apply surjective_pairing.
Defined.

(** X8. A directory where the template lists a file is never replaced: the run
    does not complete, and the path still holds a directory after it. *)
Theorem file_blocked_by_directory (fault : syscall -> bool) (current_path : string)
  (structure : pydict) (w : world) (r : outcome) (w' : world)
  (ks : list string) (f : string) :
  valid_names structure = true ->
  (ks, f) ∈ leaf_files structure ->
  fs w !! (segments current_path ++ ks ++ [f]) = Some Dir ->
  build_structure fault current_path structure w = (r, w') ->
  r <> Ok /\ fs w' !! (segments current_path ++ ks ++ [f]) = Some Dir.
Proof.
  intros Hv Hkf Hdir Hb.
  assert (Hkeep : fs w' !! (segments current_path ++ ks ++ [f]) = Some Dir).
  { rewrite build_structure_plan in Hb. by eapply run_plan_dir_persists. }
  split; [|done]. intros ->.
  rewrite (leaf_content fault current_path structure w w' ks f) in Hkeep; done.
Qed.

Lemma file_blocked_by_directory_witness :
  let run := build_structure no_fault "/tmp/x" template squatted_world in
  run.1 <> Ok
  /\ fs run.2 !! (segments "/tmp/x" ++ ["Work"; "Meetings"] ++ ["One_on_One.md"])
     = Some Dir.
Proof.
  apply (file_blocked_by_directory no_fault "/tmp/x" template squatted_world).
  - vm_compute. reflexivity.
  - vm_compute. repeat constructor.
  - vm_compute. reflexivity.
  - apply surjective_pairing.
Defined.

(** ** An empty file name *)

Lemma append_nil_r (a : string) : a +:+ EmptyString = a.
Proof. induction a as [|c a IH]; [done|]. by rewrite append_cons, IH. Qed.

(** Joined with the empty name, a path is empty or ends with a slash. *)
Lemma os_path_join_empty (a : string) :
  os_path_join a EmptyString = EmptyString
  \/ endswith (os_path_join a EmptyString) "/" = true.
Proof.
  unfold os_path_join. change (startswith EmptyString "/") with false.
  cbv iota. destruct (String.eqb a EmptyString) eqn:Ha; simpl.
  - apply String.eqb_eq in Ha as ->. by left.
  - right. destruct (endswith a "/") eqn:He.
    + by rewrite append_nil_r.
    + change ("/" +:+ EmptyString) with "/". apply endswith_append.
Qed.

(** X9. A list that holds the empty file name cannot be written: [open] refuses
    the path of the folder itself, and the run does not complete. *)
Theorem empty_file_name_fails (fault : syscall -> bool) (current_path : string)
  (structure : pydict) (w : world) (r : outcome) (w' : world) (ks : list string) :
  (ks, EmptyString) ∈ leaf_files structure ->
  build_structure fault current_path structure w = (r, w') ->
  r <> Ok.
Proof.
  intros Hkf Hb ->. rewrite build_structure_plan in Hb.
  pose proof (plan_file structure current_path ks EmptyString Hkf)
    as (ops1 & ops2 & Hsplit)%list_elem_of_split.
  rewrite Hsplit in Hb.
  apply run_plan_ok_app in Hb as (w1 & _ & Hb).
  apply run_plan_ok_cons in Hb as (w2 & He & _).
  cbn [exec] in He. apply write_text_ok in He as (Ho & _).
  apply open_error_None in Ho as (Hn & _ & _ & _ & Hs & _).
  destruct (os_path_join_empty (join_chain current_path ks)) as [Hj|Hj].
  - rewrite Hj in Hn. done.
  - congruence.
Qed.

Lemma empty_file_name_fails_witness :
  (build_structure no_fault "/tmp/x"
     (dict [("Docs", PList ["a.md"; EmptyString])]) empty_world).1 <> Ok.
Proof.
  apply (empty_file_name_fails no_fault "/tmp/x"
           (dict [("Docs", PList ["a.md"; EmptyString])]) empty_world
           _ (build_structure no_fault "/tmp/x"
                (dict [("Docs", PList ["a.md"; EmptyString])]) empty_world).2
           ["Docs"]).
  - vm_compute. repeat constructor.
  - apply surjective_pairing.
Defined.

(** ** The title of line 46 *)

Lemma has_char_append (a : ascii) (s t : string) :
  has_char a (s +:+ t) = has_char a s || has_char a t.
Proof.
  induction s as [|c s IH]; [done|].
  rewrite append_cons. cbn [has_char]. by rewrite IH, orb_assoc.
Qed.

(** Replacing a character by a text without it leaves none of it. *)
Lemma replace_char_gone (a : ascii) (new s : string) :
  has_char a new = false ->
  has_char a (str_replace s (String a EmptyString) new) = false.
Proof.
  intros Hnew. unfold str_replace. induction s as [|c s IH]; [done|].
  rewrite replace_from_cons, string_prefix_cons.
  destruct (ascii_dec a c) as [<-|Hne].
  - destruct s; cbn [String.prefix String.length Nat.sub];
      by rewrite has_char_append, Hnew, IH.
  - cbn [has_char]. rewrite IH, orb_false_r.
    apply Ascii.eqb_neq. congruence.
Qed.

(** X12. The title written in a placeholder holds no underscore, whatever the
    file name. *)
Theorem title_without_underscore (file_name : string) :
  has_char "_" (str_replace (str_replace file_name ".md" EmptyString) "_" " ")
  = false
  /\ exists title,
       placeholder file_name
       = "# " +:+ title +:+ newline +:+ newline
         +:+ "Template content for " +:+ file_name +:+ "."
       /\ has_char "_" title = false.
Proof.
  assert (H : has_char "_"
                (str_replace (str_replace file_name ".md" EmptyString) "_" " ")
              = false) by by apply replace_char_gone.
  split; [done|]. by eexists.
Qed.

(** ** The printed lines *)

Lemma announced_app (ops1 ops2 : list op) :
  announced ops1 -> announced ops2 -> announced (ops1 ++ ops2).
Proof.
  induction 1 as [|path ops _ IH|path content ops _ IH]; intros H2; simpl.
  - done.
  - apply announced_folder. by apply IH.
  - apply announced_file. by apply IH.
Qed.

Lemma file_plan_announced (path : string) (l : list string) :
  announced (file_plan path l).
Proof.
  induction l as [|f l IH]; [constructor|].
  cbn [file_plan flat_map app]. by apply announced_file.
Qed.

Lemma plan_announced (structure : pydict) :
  forall current_path, announced (plan current_path structure).
Proof.
  induction structure as [|name d rest IHd IHrest|name l rest IHrest|name rest IHrest]
    using pydict_nested_ind; intros current_path; cbn [plan].
  - constructor.
  - apply (announced_app (_ :: _ :: _)); [|done]. by apply announced_folder.
  - apply (announced_app (_ :: _ :: _)); [|done].
    apply announced_folder, file_plan_announced.
  - apply IHrest.
Qed.

Lemma folder_line_not_file_line (a b : string) :
  "Created folder: " +:+ a <> "Created file: " +:+ b.
Proof. cbv [String.append]. discriminate. Qed.

Lemma announced_print_inv (ops : list op) (line : string) :
  announced ops -> PrintLine line ∈ ops ->
  (exists p, line = "Created folder: " +:+ p)
  \/ (exists p, line = "Created file: " +:+ p).
Proof.
  induction 1 as [|path ops _ IH|path content ops _ IH].
  - by intros ?%elem_of_nil.
  - rewrite !elem_of_cons. intros [[=]|[[= ->]|Hin]]; by eauto.
  - rewrite !elem_of_cons. intros [[=]|[[= ->]|Hin]]; by eauto.
Qed.

Section Trace.

Variable fault : syscall -> bool.

Lemma makedirs_ok_is_dir (name : string) (w w' : world) :
  makedirs fault name w = (Ok, w') -> is_dir (fs w') (segments name) = true.
Proof.
  intros [_ [[? _]|Hc]]%makedirs_inv; [done|].
  unfold is_dir. destruct (segments name) as [|x l] eqn:Hs; [done|].
  rewrite (mkdir_chain_ok_dirs _ _ _ _ _ (x :: l) Hc); [done|].
  by apply (chain_paths_last []).
Qed.

Lemma run_plan_is_dir_persists (ops : list op) (w : world) (r : outcome)
  (w' : world) (q : list string) :
  run_plan fault ops w = (r, w') ->
  is_dir (fs w) q = true -> is_dir (fs w') q = true.
Proof.
  intros Hr. unfold is_dir. destruct q as [|x q]; [done|].
  destruct (fs w !! (x :: q)) as [[|c]|] eqn:Hq; try done.
  by rewrite (run_plan_dir_persists _ _ _ _ _ _ Hr Hq).
Qed.

(** Whatever its outcome, a run extends the log. *)
Lemma run_plan_raise_or_ok_log (ops : list op) (w : world) (r : outcome)
  (w' : world) :
  run_plan fault ops w = (r, w') -> exists made, log w' = log w ++ made.
Proof.
  destruct r as [|e]; intros Hr.
  - exists ops. by apply run_plan_ok_log in Hr.
  - apply run_plan_raise in Hr as (before & failed & after & _ & _ & _ & _ & ->).
    by eauto.
Qed.

(** What a run has announced is there, whatever the outcome of the run. *)
Lemma announced_run (ops : list op) :
  announced ops ->
  forall w r w' made,
    run_plan fault ops w = (r, w') -> log w' = log w ++ made ->
    (forall p, PrintLine ("Created folder: " +:+ p) ∈ made ->
               is_dir (fs w') (segments p) = true)
    /\ (forall p, PrintLine ("Created file: " +:+ p) ∈ made ->
                  exists c, fs w' !! segments p = Some (File c)).
Proof.
  induction 1 as [|path ops _ IH|path content ops _ IH]; intros w r w' made Hr Hl.
  - injection Hr as <- <-.
    rewrite <- (app_nil_r (log w)) in Hl at 1. apply app_inv_head in Hl as <-.
    split; intros p ?%elem_of_nil; done.
  - apply run_plan_step in Hr as [(e & He & _)|(w1 & He & Hr)].
    { rewrite (exec_log _ _ _ _ _ He) in Hl. apply app_inv_head in Hl as <-.
      split; intros p [=]%list_elem_of_singleton. }
    apply run_plan_step in Hr as [(e & [=] & _)|(w2 & [= <-] & Hr)].
    assert (Hmade : exists made', made = Makedirs path
                      :: PrintLine ("Created folder: " +:+ path) :: made'
                    /\ log w' = log (World (fs w1) (log w1 ++ [PrintLine ("Created folder: " +:+ path)])) ++ made').
    { destruct (run_plan_raise_or_ok_log ops _ _ _ Hr) as [made' Hm].
      exists made'. split; [|done]. rewrite Hm in Hl. simpl in Hl.
      rewrite (exec_log _ _ _ _ _ He), <- !app_assoc in Hl.
      by apply app_inv_head in Hl. }
    destruct Hmade as (made' & -> & Hl').
    destruct (IH _ _ _ _ Hr Hl') as [IHd IHf]. split.
    + intros p. rewrite !elem_of_cons. intros [[=]|[Heq|Hin]]; [|by auto].
      assert ("Created folder: " +:+ p = "Created folder: " +:+ path) as Hs
        by congruence.
      apply (inj (String.app _)) in Hs as ->.
      eapply run_plan_is_dir_persists; [exact Hr|]. simpl.
      exact (makedirs_ok_is_dir _ _ _ He).
    + intros p. rewrite !elem_of_cons. intros [[=]|[Heq|Hin]]; [|by auto].
      assert ("Created file: " +:+ p = "Created folder: " +:+ path) as Hs
        by congruence.
      by apply symmetry, folder_line_not_file_line in Hs.
  - apply run_plan_step in Hr as [(e & He & _)|(w1 & He & Hr)].
    { rewrite (exec_log _ _ _ _ _ He) in Hl. apply app_inv_head in Hl as <-.
      split; intros p [=]%list_elem_of_singleton. }
    apply run_plan_step in Hr as [(e & [=] & _)|(w2 & [= <-] & Hr)].
    assert (Hmade : exists made', made = WriteText path content
                      :: PrintLine ("Created file: " +:+ path) :: made'
                    /\ log w' = log (World (fs w1) (log w1 ++ [PrintLine ("Created file: " +:+ path)])) ++ made').
    { destruct (run_plan_raise_or_ok_log ops _ _ _ Hr) as [made' Hm].
      exists made'. split; [|done]. rewrite Hm in Hl. simpl in Hl.
      rewrite (exec_log _ _ _ _ _ He), <- !app_assoc in Hl.
      by apply app_inv_head in Hl. }
    destruct Hmade as (made' & -> & Hl').
    destruct (IH _ _ _ _ Hr Hl') as [IHd IHf]. split.
    + intros p. rewrite !elem_of_cons. intros [[=]|[Heq|Hin]]; [|by auto].
      assert ("Created folder: " +:+ p = "Created file: " +:+ path) as Hs
        by congruence.
      by apply folder_line_not_file_line in Hs.
    + intros p. rewrite !elem_of_cons. intros [[=]|[Heq|Hin]]; [|by auto].
      assert ("Created file: " +:+ p = "Created file: " +:+ path) as Hs
        by congruence.
      apply (inj (String.app _)) in Hs as ->.
      eapply run_plan_file_persists; [exact Hr|]. simpl.
      eapply (exec_ok_post _ (WriteText path content)); [exact He|].
      apply list_elem_of_here.
Qed.

End Trace.

(** X10. Every line "Created folder: p" or "Created file: p" that a run of
    [build_structure] has printed is true of the tree the run leaves, whether
    the run completes or raises: p is a directory, or a file. *)
Theorem printed_lines_hold (fault : syscall -> bool) (current_path : string)
  (structure : pydict) (w : world) (r : outcome) (w' : world) (made : list op) :
  build_structure fault current_path structure w = (r, w') ->
  log w' = log w ++ made ->
  (forall p, PrintLine ("Created folder: " +:+ p) ∈ made ->
             is_dir (fs w') (segments p) = true)
  /\ (forall p, PrintLine ("Created file: " +:+ p) ∈ made ->
                exists c, fs w' !! segments p = Some (File c)).
Proof.
  rewrite build_structure_plan. apply announced_run, plan_announced.
Qed.

Lemma printed_lines_hold_witness :
  let w := started "/tmp/x" blocked_world in
  let run := build_structure no_fault "/tmp/x" template w in
  (forall p, PrintLine ("Created folder: " +:+ p) ∈ drop (length (log w)) (log run.2) ->
             is_dir (fs run.2) (segments p) = true)
  /\ (forall p, PrintLine ("Created file: " +:+ p) ∈ drop (length (log w)) (log run.2) ->
                exists c, fs run.2 !! segments p = Some (File c)).
Proof.
  intros w run.
  apply (printed_lines_hold no_fault "/tmp/x" template w
           (Raise FileExistsError) run.2 (drop (length (log w)) (log run.2))).
  - apply raises_eta. vm_compute. reflexivity.
  - vm_compute. reflexivity.
Defined.

(** X11. [create_template] prints "Finished generating template." exactly when
    the run completes. *)
Theorem finished_line_iff_complete (fault : syscall -> bool) (base_path : string)
  (w : world) (r : outcome) (w' : world) (made : list op) :
  create_template fault base_path w = (r, w') ->
  log w' = log w ++ made ->
  (PrintLine "Finished generating template." ∈ made <-> r = Ok).
Proof.
  intros Hc Hl. split.
  - intros Hin. destruct r as [|e]; [done|]. exfalso.
    revert Hc. unfold create_template, seq. cbn [print].
    fold (started base_path w).
    destruct (build_structure fault base_path template (started base_path w))
      as [[|e'] w1] eqn:Hb; [done|].
    intros [= -> ->]. rewrite build_structure_plan in Hb.
    apply run_plan_raise in Hb
      as (before & failed & after & w2 & Hp & _ & Hf & Hlog).
    rewrite Hlog in Hl. simpl in Hl. rewrite <- !app_assoc in Hl.
    apply app_inv_head in Hl as <-.
    assert (Hplan : PrintLine "Finished generating template."
                      ∈ plan base_path template).
    { rewrite Hp. apply elem_of_cons in Hin as [[=]|Hin].
      apply elem_of_app in Hin as [Hin|Hin%list_elem_of_singleton].
      - apply elem_of_app. by left.
      - subst failed. done. }
    destruct (announced_print_inv _ _ (plan_announced _ _) Hplan)
      as [[p Hp']|[p Hp']]; revert Hp'; cbv [String.append]; discriminate.
  - intros ->. rewrite create_template_plan in Hc.
    apply run_plan_ok_log in Hc. rewrite Hc in Hl.
    apply app_inv_head in Hl as <-. unfold template_plan.
    apply list_elem_of_further, elem_of_app. right. apply list_elem_of_here.
Qed.

Lemma finished_line_iff_complete_witness :
  let run := create_template notes_denied "/tmp/x" empty_world in
  PrintLine "Finished generating template."
    ∈ drop (length (log empty_world)) (log run.2)
  <-> run.1 = Ok.
Proof.
  intros run.
  apply (finished_line_iff_complete notes_denied "/tmp/x" empty_world
           run.1 run.2 (drop (length (log empty_world)) (log run.2))).
  - apply surjective_pairing.
  - vm_compute. reflexivity.
Defined.

(** ** Running again after a run that stopped *)

Lemma written_is_Some (k : list string) (e : entry)
  (ws : list (list string * entry)) :
  (k, e) ∈ ws -> is_Some (written k ws).
Proof.
  induction ws as [|kv ws IH]; [by intros ?%elem_of_nil|].
  rewrite elem_of_cons. simpl. intros [<-|Hin].
  - destruct (written k ws); [by eauto|]. simpl.
    rewrite decide_True by done. by eauto.
  - destruct (IH Hin) as [e' ->]. by eauto.
Qed.

(** Setting the same entries in two trees that agree elsewhere gives the
    same tree. *)
Lemma apply_writes_agree (ws : list (list string * entry))
  (m1 m2 : gmap (list string) entry) :
  (forall k, written k ws = None -> m1 !! k = m2 !! k) ->
  apply_writes ws m1 = apply_writes ws m2.
Proof.
  intros Hag. apply map_eq. intros k. rewrite !lookup_apply_writes.
  destruct (written k ws) eqn:Hk; [done|]. by apply Hag.
Qed.

Lemma folder_path_written (ops : list op) (q : list string) :
  q ∈ folder_paths ops -> is_Some (written q (flat_map writes_of ops)).
Proof.
  intros (path & Ho & Hq)%elem_of_folder_paths.
  apply (written_is_Some _ Dir), list_elem_of_In, in_flat_map.
  exists (Makedirs path). split; [by apply list_elem_of_In|].
  simpl. apply in_map_iff. exists q. by rewrite <- list_elem_of_In.
Qed.

Lemma file_path_written (ops : list op) (q : list string) :
  q ∈ file_paths ops -> is_Some (written q (flat_map writes_of ops)).
Proof.
  intros (path & c & Ho & ->)%elem_of_file_paths.
  apply (written_is_Some _ (File c)), list_elem_of_In, in_flat_map.
  exists (WriteText path c). split; [by apply list_elem_of_In|]. by left.
Qed.

Section Recovery.

Variables fault1 fault2 fault3 : syscall -> bool.

(** A run from what an earlier run has left ends, when it completes, with
    the tree of a complete run from the original tree. *)
Lemma run_plan_recovers (ops : list op) (w : world) (r : outcome)
  (w1 w2 w3 : world) :
  run_plan fault1 ops w = (r, w1) ->
  run_plan fault2 ops w1 = (Ok, w3) ->
  run_plan fault3 ops w = (Ok, w2) ->
  fs w3 = fs w2.
Proof.
  intros H1 H3 H2.
  rewrite (run_plan_ok_writes _ _ _ _ H3), (run_plan_ok_writes _ _ _ _ H2).
  apply apply_writes_agree. intros k Hk.
  destruct (run_plan_frame _ _ _ _ _ k H1)
    as [?|[(_ & _ & Hq)|(Hq & _)]]; [done| |].
  - apply folder_path_written in Hq as [e He]. congruence.
  - apply file_path_written in Hq as [e He]. congruence.
Qed.

End Recovery.

(** X5. A run that was cut short leaves nothing that a later run does not
    put right.  When a run of [build_structure] has ended, complete or
    stopped by a failure, and a second run from the state it left completes,
    the tree has the directories and the file contents that a single
    complete run from the original tree gives, whatever the environments of
    the three runs: a file that the first run left half written is written
    anew, and nothing else of the first run shows. *)
Theorem rerun_after_failure (fault1 fault2 fault3 : syscall -> bool)
  (current_path : string) (structure : pydict) (w : world) (r : outcome)
  (w1 w2 w3 : world) :
  build_structure fault1 current_path structure w = (r, w1) ->
  build_structure fault2 current_path structure w1 = (Ok, w3) ->
  build_structure fault3 current_path structure w = (Ok, w2) ->
  fs w3 = fs w2.
Proof.
  rewrite !build_structure_plan. intros H1 H3 H2.
  exact (run_plan_recovers _ _ _ _ _ _ _ _ _ H1 H3 H2).
Qed.

Lemma rerun_after_failure_witness :
  let w1 := (build_structure disk_full "/tmp/x" template empty_world).2 in
  fs w1 !! ["tmp"; "x"; "Work"; "Meetings"; "One_on_One.md"]
  = Some (File EmptyString)
  /\ fs (build_structure no_fault "/tmp/x" template w1).2
     = fs (build_structure no_fault "/tmp/x" template empty_world).2.
Proof.
  intros w1. split; [vm_compute; reflexivity|].
  apply (rerun_after_failure disk_full no_fault no_fault "/tmp/x" template
           empty_world (Raise NoSpaceError) w1).
  - apply raises_eta. vm_compute. reflexivity.
  - apply completes_eta. vm_compute. reflexivity.
  - apply completes_eta. vm_compute. reflexivity.
Defined.

(** ** A fresh target *)



Lemma has_no_slash_endswith (f : string) :
  has_char "/" f = false -> endswith f "/" = false.
Proof.
  induction f as [|c f IH]; [done|].
  cbn [has_char]. intros [Hc Hf]%orb_false_elim.
  rewrite endswith_cons, (IH Hf), orb_false_r. simpl. by rewrite Hc.
Qed.

Lemma endswith_append_name (a f : string) :
  f <> EmptyString -> has_char "/" f = false ->
  endswith (a +:+ f) "/" = false.
Proof.
  intros Hne Hf. induction a as [|c a IH].
  - by apply has_no_slash_endswith.
  - rewrite append_cons, endswith_cons, IH, orb_false_r. simpl.
    destruct (Ascii.eqb c "/"); [|done].
    destruct (a +:+ f) eqn:Ha; [|done].
    destruct a; [|done]. by destruct f.
Qed.


Section Fresh.

Implicit Types (m : gmap (list string) entry) (p q : list string).




End Fresh.

Lemma chain_paths_snoc (l : list string) (x : string) (p : list string) :
  p ∈ chain_paths [] (l ++ [x]) <-> p ∈ chain_paths [] l \/ p = l ++ [x].
Proof.
  rewrite !elem_of_chain_paths. split.
  - intros (pre & Hne & Hpre & ->). simpl.
    apply prefix_app_cases in Hpre as [Hpre|(pre' & Hne' & -> & Hpre')].
    + left. by exists pre.
    + right. destruct pre' as [|y pre']; [done|].
      pose proof (prefix_cons_inv_1 _ _ _ _ Hpre') as ->.
      by apply prefix_cons_inv_2, prefix_nil_inv in Hpre' as ->.
  - intros [(pre & Hne & Hpre & ->)| ->].
    + exists pre. split; [done|]. split; [|done]. by apply prefix_app_r.
    + exists (l ++ [x]). split; [by destruct l|done].
Qed.





Section FreshRun.

Implicit Types (m : gmap (list string) entry) (p q : list string).




End FreshRun.



(** ** The entry point: where the template goes *)

Example normpath_examples :
  map normpath ["/a/b/../c//d/."; "//a"; "///a"; "a/.."; "../a"; "/.."; "a/../.."]
  = ["/a/c/d"; "//a"; "/a"; "."; "../a"; "/"; ".."].
Proof. reflexivity. Qed.

Example dirname_examples :
  map os_path_dirname ["/a/b"; "/a"; "//a"; "a"; "/a/b/"; "/a//b"; "/"]
  = ["/a"; "/"; "//"; EmptyString; "/a/b"; "/a"; "/"].
Proof. reflexivity. Qed.

Example template_root_examples :
  map (template_root "/home/user")
    ["/vault/.obsidian/plugins/abstract-folder/generate_template.py";
     "generate_template.py"; "/a/s.py"]
  = ["/vault/Template_Vault"; "/Template_Vault"; "/Template_Vault"].
Proof. reflexivity. Qed.

Lemma clean_name_spec (n : string) :
  clean_name n = true <->
  String.eqb n EmptyString = false /\ String.eqb n "." = false
  /\ String.eqb n ".." = false /\ has_char "/" n = false.
Proof.
  unfold clean_name. rewrite !andb_true_iff, !negb_true_iff. tauto.
Qed.

Lemma components_no_slashes (s : string) :
  Forall (fun c => has_char "/" c = false) (components s).
Proof.
  induction s as [|c s IH]; cbn [components].
  - by repeat constructor.
  - destruct (Ascii.eqb c "/") eqn:Hc; [by constructor|].
    destruct (components s) as [|h t]; [by repeat constructor; simpl; rewrite Hc|].
    apply Forall_cons in IH as [Hh Ht].
    constructor; [|done]. cbn [has_char]. by rewrite Hc, Hh.
Qed.

Lemma Forall_removelast {A : Type} (P : A -> Prop) (l : list A) :
  Forall P l -> Forall P (removelast l).
Proof.
  induction 1 as [|x l Hx Hl IH]; [constructor|].
  simpl. destruct l; [constructor|]. by constructor.
Qed.

Lemma Forall_up (n : nat) (l : list string) :
  Forall (fun c => clean_name c = true) l ->
  Forall (fun c => clean_name c = true) (up n l).
Proof.
  revert l. induction n as [|n IH]; intros l Hl; [done|].
  simpl. by apply IH, Forall_removelast.
Qed.

(** Resolution leaves clean segments. *)
Lemma resolve_clean (comps st : list string) :
  Forall (fun c => clean_name c = true) st ->
  Forall (fun c => has_char "/" c = false) comps ->
  Forall (fun c => clean_name c = true) (resolve st comps).
Proof.
  revert st. induction comps as [|c comps IH]; intros st Hst Hc; [done|].
  apply Forall_cons in Hc as [Hc Hcomps]. cbn [resolve].
  destruct (String.eqb c EmptyString) eqn:H1; [by apply IH|].
  destruct (String.eqb c ".") eqn:H2; [by apply IH|]. simpl.
  destruct (String.eqb c "..") eqn:H3.
  - apply IH; [by apply Forall_removelast|done].
  - apply IH; [|done]. apply Forall_app. split; [done|].
    constructor; [|done]. by apply clean_name_spec.
Qed.

Lemma segments_clean (p : string) :
  Forall (fun c => clean_name c = true) (segments p).
Proof. apply resolve_clean; [constructor|apply components_no_slashes]. Qed.

(** On clean segments resolution has nothing to do. *)
Lemma resolve_clean_id (l st : list string) :
  Forall (fun c => clean_name c = true) l -> resolve st l = st ++ l.
Proof.
  revert st. induction l as [|c l IH]; intros st Hl.
  - by rewrite app_nil_r.
  - apply Forall_cons in Hl as [(H1 & H2 & H3 & _)%clean_name_spec Hl].
    cbn [resolve]. rewrite H1, H2, H3. simpl.
    rewrite IH by done. by rewrite <- app_assoc.
Qed.

Lemma last_clean (st : list string) :
  Forall (fun c => clean_name c = true) st ->
  match last st with Some c => String.eqb c ".." | None => false end = false.
Proof.
  intros Hst. destruct (last st) as [c|] eqn:Hl; [|done].
  apply last_Some in Hl as [l' ->].
  apply Forall_app in Hst as [_ Hc]. apply Forall_cons in Hc as [Hc _].
  by apply clean_name_spec in Hc as (_ & _ & ? & _).
Qed.

(** For an absolute path the loop of [normpath] is path resolution. *)
Lemma norm_comps_abs (n : nat) (comps st : list string) :
  n <> 0 ->
  Forall (fun c => clean_name c = true) st ->
  Forall (fun c => has_char "/" c = false) comps ->
  norm_comps n st comps = resolve st comps.
Proof.
  intros Hn. revert st. induction comps as [|c comps IH]; intros st Hst Hc; [done|].
  apply Forall_cons in Hc as [Hc Hcomps]. cbn [norm_comps resolve].
  destruct (String.eqb c EmptyString) eqn:H1; [by apply IH|].
  destruct (String.eqb c ".") eqn:H2; [by apply IH|]. simpl.
  destruct (String.eqb c "..") eqn:H3; simpl.
  - rewrite last_clean by done. 
    replace (Nat.eqb n 0) with false by (symmetry; by apply Nat.eqb_neq).
    simpl. apply IH; [by apply Forall_removelast|done].
  - apply IH; [|done]. apply Forall_app. split; [done|].
    constructor; [|done]. by apply clean_name_spec.
Qed.

Lemma str_join_cons (x y : string) (l : list string) :
  str_join "/" (x :: y :: l) = x +:+ String "/" (str_join "/" (y :: l)).
Proof. reflexivity. Qed.

Lemma str_join_snoc (l : list string) (x : string) :
  l <> [] -> str_join "/" (l ++ [x]) = str_join "/" l +:+ String "/" x.
Proof.
  induction l as [|a l IH]; [done|]. intros _.
  destruct l as [|b l]; [done|].
  change ((a :: b :: l) ++ [x]) with (a :: b :: (l ++ [x])).
  rewrite !str_join_cons.
  change (b :: l ++ [x]) with ((b :: l) ++ [x]).
  rewrite IH by done. by rewrite append_assoc.
Qed.

Lemma components_join (l : list string) :
  l <> [] -> Forall (fun c => has_char "/" c = false) l ->
  components (str_join "/" l) = l.
Proof.
  induction l as [|a l IH]; [done|]. intros _ [Ha Hl]%Forall_cons.
  destruct l as [|b l]; [by apply components_no_slash|].
  rewrite str_join_cons, components_app_slash, components_no_slash by done.
  by rewrite IH.
Qed.

Lemma clean_no_slash (l : list string) :
  Forall (fun c => clean_name c = true) l ->
  Forall (fun c => has_char "/" c = false) l.
Proof.
  intros Hl. eapply Forall_impl; [exact Hl|].
  by intros c (_ & _ & _ & ?)%clean_name_spec.
Qed.

Lemma segments_joined (l : list string) :
  Forall (fun c => clean_name c = true) l -> segments (str_join "/" l) = l.
Proof.
  intros Hl. unfold segments. destruct l as [|a l]; [done|].
  rewrite components_join by (done || by apply clean_no_slash).
  by rewrite resolve_clean_id.
Qed.

(** The segments of [sl + "/".join(l)], for one or two leading slashes. *)
Lemma segments_rooted (n : nat) (l : list string) :
  Forall (fun c => clean_name c = true) l ->
  segments (slashes (S n) +:+ str_join "/" l) = segments (slashes n +:+ str_join "/" l).
Proof.
  intros Hl. unfold segments. cbn [slashes]. rewrite append_cons.
  change (String "/" (slashes n +:+ str_join "/" l))
    with (EmptyString +:+ String "/" (slashes n +:+ str_join "/" l)).
  by rewrite components_app_slash, resolve_app.
Qed.

Lemma segments_canon (n : nat) (l : list string) :
  Forall (fun c => clean_name c = true) l ->
  segments (slashes n +:+ str_join "/" l) = l.
Proof.
  intros Hl. induction n as [|n IH].
  - by apply segments_joined.
  - by rewrite segments_rooted.
Qed.

Lemma initial_slashes_abs (p : string) :
  startswith p "/" = true -> initial_slashes p = 1 \/ initial_slashes p = 2.
Proof.
  intros Hp. unfold initial_slashes. rewrite Hp.
  destruct (startswith p "//" && negb (startswith p "///")); by auto.
Qed.

(** [normpath] of an absolute path: the leading slashes it keeps, then the
    resolved segments joined by slashes. *)
Lemma normpath_abs (p : string) :
  startswith p "/" = true ->
  normpath p = slashes (initial_slashes p) +:+ str_join "/" (segments p).
Proof.
  intros Hp. unfold normpath.
  destruct p as [|c p]; [done|]. cbn [String.eqb].
  rewrite norm_comps_abs; [| |constructor|apply components_no_slashes].
  - fold (segments (String c p)).
    destruct (initial_slashes_abs _ Hp) as [-> | ->]; reflexivity.
  - destruct (initial_slashes_abs _ Hp) as [-> | ->]; done.
Qed.

Lemma abspath_join (cwd path : string) :
  os_path_abspath cwd path = normpath (os_path_join cwd path).
Proof.
  unfold os_path_abspath, os_path_isabs, os_path_join.
  by destruct (startswith path "/").
Qed.

Lemma startswith_cons (c : ascii) (s : string) :
  startswith (String c s) "/" = Ascii.eqb c "/".
Proof.
  unfold startswith. rewrite string_prefix_cons.
  destruct (ascii_dec "/" c) as [<-|Hne]; [by destruct s|].
  symmetry. apply Ascii.eqb_neq. congruence.
Qed.

Lemma startswith_append (a b : string) :
  startswith a "/" = true -> startswith (a +:+ b) "/" = true.
Proof.
  destruct a as [|c a]; [done|]. by rewrite append_cons, !startswith_cons.
Qed.

(** Joined to an absolute working directory, every path is absolute. *)
Lemma os_path_join_abs (cwd path : string) :
  startswith cwd "/" = true -> startswith (os_path_join cwd path) "/" = true.
Proof.
  intros Hc. unfold os_path_join.
  destruct (startswith path "/") eqn:Hp; [done|].
  destruct (String.eqb cwd EmptyString || endswith cwd "/");
    by apply startswith_append.
Qed.

(** *** [dirname] *)

Lemma upto_last_slash_none (x : string) :
  has_char "/" x = false -> upto_last_slash x = EmptyString.
Proof. destruct x as [|c x]; [done|]. cbn [upto_last_slash]. by intros ->. Qed.

Lemma upto_last_slash_app (a x : string) :
  has_char "/" x = false ->
  upto_last_slash (a +:+ String "/" x) = a +:+ "/".
Proof.
  intros Hx. induction a as [|c a IH].
  - change (EmptyString +:+ String "/" x) with (String "/" x).
    cbn [upto_last_slash has_char]. rewrite Ascii.eqb_refl. simpl.
    by rewrite upto_last_slash_none.
  - rewrite !append_cons. cbn [upto_last_slash].
    replace (has_char "/" (String c (a +:+ String "/" x))) with true.
    + by rewrite IH.
    + symmetry. cbn [has_char]. rewrite has_char_append. cbn [has_char].
      rewrite Ascii.eqb_refl. simpl. by rewrite !orb_true_r.
Qed.

Lemma all_slashes_append (a b : string) :
  all_slashes (a +:+ b) = all_slashes a && all_slashes b.
Proof.
  induction a as [|c a IH]; [done|].
  rewrite append_cons. cbn [all_slashes]. by rewrite IH, andb_assoc.
Qed.

Lemma all_slashes_name (x : string) :
  x <> EmptyString -> has_char "/" x = false -> all_slashes x = false.
Proof.
  destruct x as [|c x]; [done|]. intros _. cbn [has_char all_slashes].
  by intros [-> _]%orb_false_elim.
Qed.

Lemma rstrip_slashes_name (x : string) :
  has_char "/" x = false -> rstrip_slashes x = x.
Proof.
  induction x as [|c x IH]; [done|]. cbn [has_char].
  intros [Hc Hx]%orb_false_elim. cbn [rstrip_slashes all_slashes].
  by rewrite Hc, IH.
Qed.

(** A text that ends with a name has no trailing slash to strip. *)
Lemma rstrip_slashes_keep (a x : string) :
  x <> EmptyString -> has_char "/" x = false ->
  rstrip_slashes (a +:+ x) = a +:+ x.
Proof.
  intros Hne Hx. induction a as [|c a IH].
  - by apply rstrip_slashes_name.
  - rewrite append_cons. cbn [rstrip_slashes all_slashes].
    rewrite all_slashes_append, (all_slashes_name x) by done.
    by rewrite !andb_false_r, IH.
Qed.

Lemma rstrip_slashes_app_slash (a : string) :
  rstrip_slashes (a +:+ "/") = rstrip_slashes a.
Proof.
  induction a as [|c a IH]; [done|].
  rewrite append_cons. cbn [rstrip_slashes all_slashes].
  rewrite all_slashes_append. cbn [all_slashes]. rewrite Ascii.eqb_refl.
  simpl. rewrite andb_true_r. by rewrite IH.
Qed.

(** A joined list of clean names ends with its last name. *)
Lemma str_join_ends (l : list string) :
  l <> [] -> Forall (fun c => clean_name c = true) l ->
  exists a x, str_join "/" l = a +:+ x
              /\ x <> EmptyString /\ has_char "/" x = false.
Proof.
  intros Hne Hl. destruct (exists_last Hne) as (l' & x & ->).
  apply Forall_app in Hl as [_ Hx]. apply Forall_cons in Hx as [Hx _].
  apply clean_name_spec in Hx as (Hx1%String.eqb_neq & _ & _ & Hx4).
  destruct l' as [|y l'].
  - exists EmptyString, x. by repeat split.
  - exists (str_join "/" (y :: l') +:+ "/"), x.
    rewrite str_join_snoc by done. split; [|done].
    by rewrite append_assoc.
Qed.

(** [dirname] of a normalized absolute path drops its last segment. *)
Lemma dirname_canon (n : nat) (l : list string) :
  n <> 0 ->
  Forall (fun c => clean_name c = true) l ->
  os_path_dirname (slashes n +:+ str_join "/" l)
  = slashes n +:+ str_join "/" (removelast l).
Proof.
  intros Hn Hl. destruct (decide (l = [])) as [->|Hne].
  { simpl. rewrite append_nil_r. unfold os_path_dirname.
    assert (Hall : all_slashes (slashes n) = true)
      by (clear; induction n; [done|]; simpl; done).
    assert (Hup : upto_last_slash (slashes n) = slashes n).
    { clear -Hn. induction n as [|n IH]; [done|].
      destruct n as [|n]; [done|].
      cbn [slashes upto_last_slash has_char]. rewrite Ascii.eqb_refl. simpl.
      f_equal. by apply IH. }
    by rewrite Hup, Hall, andb_false_r. }
  destruct (exists_last Hne) as (l' & x & ->).
  rewrite removelast_last.
  pose proof Hl as [Hl' Hx]%Forall_app. apply Forall_cons in Hx as [Hx _].
  apply clean_name_spec in Hx as (Hx1%String.eqb_neq & _ & _ & Hx4).
  unfold os_path_dirname. destruct l' as [|y l'].
  - (* a single segment: the head is the leading slashes *)
    change (str_join "/" ([] ++ [x])) with x. change (str_join "/" []) with EmptyString.
    rewrite append_nil_r. destruct n as [|n]; [done|].
    assert (Hs : slashes (S n) = slashes n +:+ "/").
    { clear. induction n as [|n IH]; [done|].
      cbn [slashes] in *. by rewrite append_cons, <- IH. }
    rewrite Hs, append_assoc. change ("/" +:+ x) with (String "/" x).
    rewrite upto_last_slash_app by done. rewrite <- Hs.
    assert (Hall : all_slashes (slashes (S n)) = true)
      by (clear; induction n; [done|]; simpl in *; done).
    by rewrite Hall, andb_false_r.
  - rewrite str_join_snoc by done.
    rewrite <- append_assoc, upto_last_slash_app by done.
    destruct (str_join_ends (y :: l')) as (a & z & Hj & Hz1 & Hz2); [done|done|].
    rewrite Hj, <- append_assoc.
    replace (String.eqb (((slashes n +:+ a) +:+ z) +:+ "/") EmptyString) with false.
    2:{ symmetry. apply String.eqb_neq. intros Heq.
        apply (f_equal String.length) in Heq. rewrite !length_append in Heq.
        simpl in Heq. lia. }
    rewrite all_slashes_append, all_slashes_append, (all_slashes_name z) by done.
    rewrite andb_false_r. simpl.
    rewrite rstrip_slashes_app_slash. by apply rstrip_slashes_keep.
Qed.

(** *** Joining to a normalized path *)

Lemma slashes_snoc (n : nat) : slashes (S n) = slashes n +:+ "/".
Proof.
  induction n as [|n IH]; [done|].
  cbn [slashes] in *. by rewrite append_cons, <- IH.
Qed.

Lemma canon_not_ending (n : nat) (l : list string) :
  l <> [] -> Forall (fun c => clean_name c = true) l ->
  endswith (slashes n +:+ str_join "/" l) "/" = false
  /\ String.eqb (slashes n +:+ str_join "/" l) EmptyString = false.
Proof.
  intros Hne Hl. destruct (str_join_ends l Hne Hl) as (a & x & -> & Hx1 & Hx2).
  rewrite <- append_assoc. split.
  - by apply endswith_append_name.
  - apply String.eqb_neq. intros Heq.
    apply (f_equal String.length) in Heq. rewrite !length_append in Heq.
    destruct x; [done|]. simpl in Heq. lia.
Qed.

(** [os.path.join] of a normalized absolute path and a relative one. *)
Lemma os_path_join_canon (n : nat) (l : list string) (name : string) :
  n <> 0 -> Forall (fun c => clean_name c = true) l ->
  startswith name "/" = false ->
  os_path_join (slashes n +:+ str_join "/" l) name
  = match l with
    | [] => slashes n +:+ name
    | _ => (slashes n +:+ str_join "/" l) +:+ String "/" name
    end.
Proof.
  intros Hn Hl Hname. unfold os_path_join. rewrite Hname.
  destruct l as [|x l].
  - change (str_join "/" []) with EmptyString. rewrite append_nil_r.
    destruct n as [|n]; [done|].
    replace (endswith (slashes (S n)) "/") with true
      by (symmetry; rewrite slashes_snoc; apply endswith_append).
    by rewrite orb_true_r.
  - destruct (canon_not_ending n (x :: l)) as [-> ->]; done.
Qed.

Lemma str_join_first (l : list string) :
  l <> [] -> Forall (fun c => clean_name c = true) l ->
  exists c z, str_join "/" l = String c z /\ Ascii.eqb c "/" = false.
Proof.
  destruct l as [|x l]; [done|]. intros _ [Hx _]%Forall_cons.
  apply clean_name_spec in Hx as (Hx1 & _ & _ & Hx4).
  destruct x as [|c x]; [done|]. cbn [has_char] in Hx4.
  apply orb_false_elim in Hx4 as [Hc _].
  destruct l as [|y l]; [by eauto|].
  rewrite str_join_cons, append_cons. by eauto.
Qed.

Lemma initial_slashes_rooted (n : nat) (c : ascii) (z : string) :
  n = 1 \/ n = 2 -> Ascii.eqb c "/" = false ->
  initial_slashes (slashes n +:+ String c z) = n.
Proof.
  intros Hn Hc. assert (Hne : "/"%char <> c).
  { intros <-. by rewrite Ascii.eqb_refl in Hc. }
  unfold initial_slashes, startswith.
  destruct Hn as [-> | ->]; cbn [slashes]; rewrite ?append_cons;
    change (EmptyString +:+ String c z) with (String c z);
    rewrite !string_prefix_cons;
    repeat (destruct (ascii_dec _ _); try done; rewrite ?string_prefix_cons).
Qed.

(** Three levels up from a normalized absolute path. *)
Lemma abspath_three_up (cwd : string) (n : nat) (l : list string) :
  n = 1 \/ n = 2 ->
  Forall (fun c => clean_name c = true) l ->
  os_path_abspath cwd (os_path_join (slashes n +:+ str_join "/" l) "../../..")
  = slashes n +:+ str_join "/" (up 3 l).
Proof.
  intros Hn Hl.
  assert (Hn0 : n <> 0) by (destruct Hn; lia).
  rewrite os_path_join_canon by done.
  unfold os_path_abspath, os_path_isabs.
  assert (Habs : forall t, startswith (slashes n +:+ t) "/" = true).
  { intros t. destruct Hn as [-> | ->]; cbn [slashes];
      by rewrite append_cons, startswith_cons. }
  destruct l as [|x l].
  - rewrite Habs, normpath_abs by done.
    destruct Hn as [-> | ->]; reflexivity.
  - rewrite append_assoc, Habs, normpath_abs by apply Habs.
    assert (Hseg : segments (slashes n +:+ str_join "/" (x :: l)
                             +:+ String "/" "../../..") = up 3 (x :: l)).
    { rewrite <- append_assoc. unfold segments.
      rewrite components_app_slash, resolve_app.
      fold (segments (slashes n +:+ str_join "/" (x :: l))).
      by rewrite segments_canon. }
    assert (Hinit : initial_slashes (slashes n +:+ str_join "/" (x :: l)
                                     +:+ String "/" "../../..") = n).
    { destruct (str_join_first (x :: l)) as (c & z & -> & Hc); [done|done|].
      rewrite append_cons. by apply initial_slashes_rooted. }
    by rewrite Hseg, Hinit.
Qed.

(** The path the entry point computes, as a string. *)
Lemma template_root_canon (cwd file : string) :
  startswith cwd "/" = true ->
  template_root cwd file
  = slashes (initial_slashes (os_path_join cwd file))
    +:+ str_join "/" (up 4 (segments (os_path_join cwd file))
                      ++ ["Template_Vault"]).
Proof.
  intros Hcwd.
  pose proof (os_path_join_abs cwd file Hcwd) as Habs.
  pose proof (initial_slashes_abs _ Habs) as Hn.
  pose proof (segments_clean (os_path_join cwd file)) as Hclean.
  assert (Hn0 : initial_slashes (os_path_join cwd file) <> 0)
    by (destruct Hn; lia).
  assert (Hup : Forall (fun c => clean_name c = true)
                  (up 4 (segments (os_path_join cwd file))))
    by by apply Forall_up.
  unfold template_root. cbv zeta.
  rewrite (abspath_join cwd file), normpath_abs by done.
  rewrite dirname_canon by done.
  rewrite abspath_three_up by (done || by apply Forall_removelast).
  change (up 3 (removelast (segments (os_path_join cwd file))))
    with (up 4 (segments (os_path_join cwd file))).
  rewrite os_path_join_canon by done.
  destruct (up 4 (segments (os_path_join cwd file))) as [|x l] eqn:Hu;
    [done|].
  rewrite str_join_snoc by done. by rewrite append_assoc.
Qed.

Lemma vault_segments_clean (cwd file : string) :
  Forall (fun c => clean_name c = true)
    (up 4 (segments (os_path_join cwd file)) ++ ["Template_Vault"]).
Proof.
  apply Forall_app. split; [apply Forall_up, segments_clean|].
  by repeat constructor.
Qed.

(** X1. The entry point passes to [create_template] the folder "Template_Vault"
    of the directory three levels above the directory of the script: for a
    script whose absolute path has the segments [s], the path passed is the
    leading slashes, the segments of [s] without the last four, and
    "Template_Vault", joined by slashes (at the root, "up" stays at the
    root). *)
Theorem template_root_three_levels_up (cwd file : string) :
  startswith cwd "/" = true ->
  template_root cwd file
  = slashes (initial_slashes (os_path_join cwd file))
    +:+ str_join "/" (up 4 (segments (os_path_join cwd file))
                      ++ ["Template_Vault"])
  /\ segments (template_root cwd file)
     = up 4 (segments (os_path_join cwd file)) ++ ["Template_Vault"].
Proof.
  intros Hcwd. pose proof (template_root_canon cwd file Hcwd) as Hroot.
  split; [exact Hroot|].
  rewrite Hroot. apply segments_canon, vault_segments_clean.
Qed.

Lemma template_root_three_levels_up_witness :
  template_root "/home/user"
    "/vault/.obsidian/plugins/abstract-folder/generate_template.py"
  = slashes 1 +:+ str_join "/" (["vault"] ++ ["Template_Vault"])
  /\ segments (template_root "/home/user"
       "/vault/.obsidian/plugins/abstract-folder/generate_template.py")
     = ["vault"] ++ ["Template_Vault"].
Proof.
  apply (template_root_three_levels_up "/home/user"
           "/vault/.obsidian/plugins/abstract-folder/generate_template.py").
  vm_compute. reflexivity.
Defined.

(** X3. Run as a program, with no call failing, the script leaves the whole
    template in "Template_Vault" three levels above the directory of the
    script: that directory, a directory for every folder of the template
    and, in it, every listed file with its placeholder. *)
Theorem main_builds_vault (fault : syscall -> bool) (cwd file : string)
  (w w' : world) :
  startswith cwd "/" = true ->
  main fault cwd file w = (Ok, w') ->
  fs w' !! (up 4 (segments (os_path_join cwd file)) ++ ["Template_Vault"])
  = Some Dir
  /\ (forall ks, ks ∈ folder_chains template ->
        fs w' !! ((up 4 (segments (os_path_join cwd file)) ++ ["Template_Vault"])
                  ++ ks) = Some Dir)
  /\ (forall ks f, (ks, f) ∈ leaf_files template ->
        fs w' !! ((up 4 (segments (os_path_join cwd file)) ++ ["Template_Vault"])
                  ++ ks ++ [f]) = Some (File (placeholder f))).
Proof.
  intros Hcwd Hm.
  assert (Hseg : segments (template_root cwd file)
                 = up 4 (segments (os_path_join cwd file)) ++ ["Template_Vault"]).
  { rewrite (template_root_canon cwd file Hcwd).
    apply segments_canon, vault_segments_clean. }
  unfold main in Hm.
  apply create_template_ok_inv in Hm as (w2 & Hb & -> & _).
  rewrite <- Hseg. split; [|split].
  - rewrite build_structure_plan in Hb.
    eapply run_plan_ok_folder; [exact Hb| |].
    + apply (plan_folder template (template_root cwd file) ["University"]).
      apply list_elem_of_In. vm_compute. tauto.
    + rewrite segments_join_chain by done.
      apply chain_paths_snoc. left. apply (chain_paths_last []).
      rewrite Hseg. by destruct (up 4 _).
  - intros ks Hks. by eapply folder_dir; [apply template_valid|exact Hb|].
  - intros ks f Hkf. by eapply leaf_content; [apply template_valid|exact Hb|].
Qed.

Lemma main_builds_vault_witness :
  let w' := (main no_fault "/home/user"
               "/vault/.obsidian/plugins/abstract-folder/generate_template.py"
               empty_world).2 in
  fs w' !! (["vault"] ++ ["Template_Vault"]) = Some Dir
  /\ (forall ks, ks ∈ folder_chains template ->
        fs w' !! ((["vault"] ++ ["Template_Vault"]) ++ ks) = Some Dir)
  /\ (forall ks f, (ks, f) ∈ leaf_files template ->
        fs w' !! ((["vault"] ++ ["Template_Vault"]) ++ ks ++ [f])
        = Some (File (placeholder f))).
Proof.
  apply (main_builds_vault no_fault "/home/user"
           "/vault/.obsidian/plugins/abstract-folder/generate_template.py"
           empty_world).
  - vm_compute. reflexivity.
  - apply completes_eta. vm_compute. reflexivity.
Defined.

Lemma os_path_join_absolute (cwd path : string) :
  startswith path "/" = true -> os_path_join cwd path = path.
Proof. intros Hp. unfold os_path_join. by rewrite Hp. Qed.

(** X2. When [__file__] is an absolute path, the folder the entry point builds
    does not depend on the directory the program is run from. *)
Theorem template_root_independent_of_cwd (cwd cwd' file : string) :
  startswith file "/" = true ->
  startswith cwd "/" = true -> startswith cwd' "/" = true ->
  template_root cwd file = template_root cwd' file.
Proof.
  intros Hf Hc Hc'.
  rewrite (template_root_canon cwd file Hc), (template_root_canon cwd' file Hc').
  by rewrite !os_path_join_absolute.
Qed.

Lemma template_root_independent_of_cwd_witness :
  template_root "/home/user" "/vault/a/b/c/generate_template.py"
  = template_root "/tmp" "/vault/a/b/c/generate_template.py".
Proof.
  apply (template_root_independent_of_cwd "/home/user" "/tmp"
           "/vault/a/b/c/generate_template.py"); vm_compute; reflexivity.
Defined.

(** ** The order of the entries *)

Lemma written_elem (k : list string) (e : entry)
  (ws : list (list string * entry)) :
  written k ws = Some e -> (k, e) ∈ ws.
Proof.
  induction ws as [|[k' e'] ws IH]; [done|]. simpl.
  destruct (written k ws) as [e0|].
  - intros [= ->]. by apply list_elem_of_further, IH.
  - case_decide as Hk; [|done]. simpl in Hk. intros [= ->]. subst k'.
    apply list_elem_of_here.
Qed.

Lemma elem_of_writes (ops : list op) (k : list string) (e : entry) :
  (k, e) ∈ flat_map writes_of ops <->
  exists o, o ∈ ops /\ (k, e) ∈ writes_of o.
Proof.
  rewrite list_elem_of_In, in_flat_map. setoid_rewrite list_elem_of_In. done.
Qed.

Section SameTree.

Variable fault : syscall -> bool.

(** In a complete run every entry a call sets is of the kind set at the
    end. *)
Lemma complete_run_kind (ops : list op) (w wf : world) (o : op)
  (k : list string) (e : entry) :
  run_plan fault ops w = (Ok, wf) -> o ∈ ops -> (k, e) ∈ writes_of o ->
  match e with
  | Dir => fs wf !! k = Some Dir
  | File _ => exists c, fs wf !! k = Some (File c)
  end.
Proof.
  intros Hr (ops1 & ops2 & ->)%list_elem_of_split Hke.
  apply run_plan_ok_app in Hr as (w1 & _ & Hr).
  apply run_plan_ok_cons in Hr as (w2 & He & Hr).
  pose proof (exec_ok_post _ _ _ _ _ _ He Hke) as Hpost.
  destruct e as [|c].
  - by eapply run_plan_dir_persists.
  - by eapply run_plan_file_persists.
Qed.

(** Two plans with the same folders to make and the same files to write
    leave the same tree when they both complete. *)
Lemma same_calls_same_tree (ops ops' : list op) (w w1 w1' : world) :
  (forall o, (forall line, o <> PrintLine line) -> o ∈ ops <-> o ∈ ops') ->
  (forall path c path' c',
      WriteText path c ∈ ops -> WriteText path' c' ∈ ops ->
      segments path = segments path' -> c = c') ->
  run_plan fault ops w = (Ok, w1) ->
  run_plan fault ops' w = (Ok, w1') ->
  fs w1 = fs w1'.
Proof.
  intros Hsame Hcontent Hr Hr'.
  assert (Hto : forall k e, (k, e) ∈ flat_map writes_of ops <->
                            (k, e) ∈ flat_map writes_of ops').
  { intros k e. rewrite !elem_of_writes.
    split; intros (o & Ho & Hke); exists o; (split; [|done]);
      apply Hsame; try done; intros line ->; by apply elem_of_nil in Hke. }
  assert (Hone : forall k e e', (k, e) ∈ flat_map writes_of ops ->
                                (k, e') ∈ flat_map writes_of ops -> e = e').
  { intros k e e' (o & Ho & Hke)%elem_of_writes (o' & Ho' & Hke')%elem_of_writes.
    pose proof (complete_run_kind _ _ _ _ _ _ Hr Ho Hke) as Hk.
    pose proof (complete_run_kind _ _ _ _ _ _ Hr Ho' Hke') as Hk'.
    destruct e as [|c], e' as [|c']; try done.
    - destruct Hk' as [? ?]. congruence.
    - destruct Hk as [? ?]. congruence.
    - f_equal.
      destruct o as [p|p c0|l]; [|
        |by apply elem_of_nil in Hke].
      { simpl in Hke. apply elem_of_map in Hke as (? & [=] & _). }
      destruct o' as [p'|p' c0'|l']; [|
        |by apply elem_of_nil in Hke'].
      { simpl in Hke'. apply elem_of_map in Hke' as (? & [=] & _). }
      apply list_elem_of_singleton in Hke as [= -> ->].
      apply list_elem_of_singleton in Hke' as [= Hseg ->].
      by eapply Hcontent. }
  rewrite (run_plan_ok_writes _ _ _ _ Hr), (run_plan_ok_writes _ _ _ _ Hr').
  apply map_eq. intros k. rewrite !lookup_apply_writes.
  destruct (written k (flat_map writes_of ops)) as [e|] eqn:Hw;
    destruct (written k (flat_map writes_of ops')) as [e'|] eqn:Hw'.
  - f_equal. apply (Hone k); [by apply written_elem|].
    by apply Hto, written_elem.
  - apply written_elem, Hto in Hw.
    apply written_is_Some in Hw as [? ?]. congruence.
  - apply written_elem, Hto in Hw'.
    apply written_is_Some in Hw' as [? ?]. congruence.
  - done.
Qed.

End SameTree.

(** X6. The tree a complete run leaves depends on the folders and the listed
    files of the structure, not on their order: two structures with the same
    chains of folders and the same listed files, run to completion from the
    same tree, leave the same tree. *)
Theorem same_entries_same_tree (fault : syscall -> bool) (current_path : string)
  (structure structure' : pydict) (w w1 w1' : world) :
  valid_names structure = true ->
  (forall ks, ks ∈ folder_chains structure <-> ks ∈ folder_chains structure') ->
  (forall ks f, (ks, f) ∈ leaf_files structure <-> (ks, f) ∈ leaf_files structure') ->
  build_structure fault current_path structure w = (Ok, w1) ->
  build_structure fault current_path structure' w = (Ok, w1') ->
  fs w1 = fs w1'.
Proof.
  intros Hv Hfolders Hfiles. rewrite !build_structure_plan.
  apply same_calls_same_tree.
  - intros [path|path c|line] Hnp; [| |by destruct (Hnp line)].
    + split; intros (ks & Hks & ->)%plan_makedirs_inv;
        by apply plan_folder, Hfolders.
    + split; intros (ks & f & Hkf & -> & ->)%plan_write_inv;
        by apply plan_file, Hfiles.
  - intros path c path' c' (ks & f & Hkf & -> & ->)%plan_write_inv
      (ks' & f' & Hkf' & -> & ->)%plan_write_inv.
    destruct (valid_leaf_file _ _ _ Hv Hkf) as [Hvk Hvf].
    destruct (valid_leaf_file _ _ _ Hv Hkf') as [Hvk' Hvf'].
    rewrite !segments_target by done.
    intros Heq%app_inv_head. by apply app_inj_tail in Heq as [_ ->].
Qed.

Lemma same_entries_same_tree_witness :
  fs (build_structure no_fault "/tmp/x"
        (dict [("Work", PDict (dict [("Admin", PList ["b.md"; "a.md"]);
                                     ("Meetings", PList ["s.md"])]));
               ("Notes", PList ["n.md"])]) empty_world).2
  = fs (build_structure no_fault "/tmp/x"
          (dict [("Notes", PList ["n.md"]);
                 ("Work", PDict (dict [("Meetings", PList ["s.md"]);
                                       ("Admin", PList ["a.md"; "b.md"; "a.md"])]))])
          empty_world).2.
Proof.
  apply (same_entries_same_tree no_fault "/tmp/x"
           (dict [("Work", PDict (dict [("Admin", PList ["b.md"; "a.md"]);
                                        ("Meetings", PList ["s.md"])]));
                  ("Notes", PList ["n.md"])])
           (dict [("Notes", PList ["n.md"]);
                  ("Work", PDict (dict [("Meetings", PList ["s.md"]);
                                        ("Admin", PList ["a.md"; "b.md"; "a.md"])]))])
           empty_world).
  - vm_compute. reflexivity.
  - intros ks. rewrite !list_elem_of_In. vm_compute. tauto.
  - intros ks f. rewrite !list_elem_of_In. vm_compute. tauto.
  - apply completes_eta. vm_compute. reflexivity.
  - apply completes_eta. vm_compute. reflexivity.
Defined.
